(** * Tenex task generator: [plugins/tenex-tasks/tenex_task.ts]

    A shallow embedding of the script that maps a transcript to a project
    directory, synthesises a task with two calls to a text-generation
    command and publishes it with the [nak] command, followed by the
    properties of its project-resolution and orchestration logic.

    JavaScript strings are modelled as [string]; a character stands for a
    UTF-16 code unit below 256 (the Latin-1 range).  Every interaction with
    the outside (console, file system, child processes) is recorded in a
    trace, and the answers of the outside come from a [World] of oracles
    indexed by the number of interactions performed so far.

    The functions of the script are embedded one by one, in a monad of
    traces.  The top level of the script starts a check that the
    workspace root is accessible without waiting for it, checks the
    argument count and calls [processTenexTask]; a failure of the access
    check is therefore reported while [processTenexTask] is under way.
    [TenexTask.run] is the call of [processTenexTask] on its own, and
    [Script.script] is the whole script, for every moment at which the
    answer of the access check can arrive. *)

From Stdlib Require Import String Ascii List Bool Arith NArith ZArith Lia.
From Stdlib Require Import DecimalString DecimalPos DecimalZ.
Import ListNotations.
Local Open Scope string_scope.

(** ** The string operations of the JavaScript runtime used by the script *)

Module JsString.

(** Line feed, the separator of [split('\n')] and [join('\n')]. *)
Definition newline : ascii := ascii_of_nat 10.
Definition LF : string := String newline "".

(** The double quote character, as a one-character string. *)
Definition DQ : string := String (ascii_of_nat 34) "".

(** White space as [String.prototype.trim] sees it, among the code units
    below 256: TAB, LF, VT, FF, CR, SPACE and NO-BREAK SPACE. *)
Definition isWhiteSpace (c : ascii) : bool :=
  let n := N_of_ascii c in
  ((9 <=? n) && (n <=? 13) || (n =? 32) || (n =? 160))%N.

Fixpoint trimStart (s : string) : string :=
  match s with
  | "" => ""
  | String c s' => if isWhiteSpace c then trimStart s' else s
  end.

Fixpoint trimEnd (s : string) : string :=
  match s with
  | "" => ""
  | String c s' =>
      match trimEnd s' with
      | "" => if isWhiteSpace c then "" else String c ""
      | t => String c t
      end
  end.

(** [s.trim()] *)
Definition trim (s : string) : string := trimEnd (trimStart s).

(** Lower-casing of one code unit below 256: [A-Z] and the upper-case
    letters of Latin-1 (0xC0-0xDE except the multiplication sign 0xD7)
    move up by 32. *)
Definition toLowerChar (c : ascii) : ascii :=
  let n := N_of_ascii c in
  if ((65 <=? n) && (n <=? 90)
      || (192 <=? n) && (n <=? 222) && negb (n =? 215))%N
  then ascii_of_N (n + 32) else c.

(** [s.toLowerCase()] *)
Fixpoint toLowerCase (s : string) : string :=
  match s with
  | "" => ""
  | String c s' => String (toLowerChar c) (toLowerCase s')
  end.

(** [s.startsWith(p)] *)
Fixpoint startsWith (s p : string) : bool :=
  match p, s with
  | "", _ => true
  | String _ _, "" => false
  | String a p', String b s' => Ascii.eqb a b && startsWith s' p'
  end.

(** [s.split(sep)] for a separator of one character: never empty. *)
Fixpoint split (sep : ascii) (s : string) : list string :=
  match s with
  | "" => [""]
  | String c s' =>
      if Ascii.eqb c sep then "" :: split sep s'
      else match split sep s' with
           | [] => [String c ""]
           | x :: xs => String c x :: xs
           end
  end.

(** [a[0]] used as a string: out of range JavaScript gives [undefined],
    which both a template literal and [startsWith] turn into the text
    [undefined]. *)
Definition first (a : list string) : string := hd "undefined" a.

(** [a.join(sep)] *)
Fixpoint join (sep : string) (a : list string) : string :=
  match a with
  | [] => ""
  | [x] => x
  | x :: rest => x ++ sep ++ join sep rest
  end.

(** A string in a boolean position: only the empty string is falsy. *)
Definition truthy (s : string) : bool :=
  match s with "" => false | _ => true end.

(** [String(n)] for the integers the script prints. *)
Definition ofZ (z : Z) : string := NilZero.string_of_int (Z.to_int z).
Definition ofNat (n : nat) : string := ofZ (Z.of_nat n).

End JsString.

(** ** JavaScript values read from the project descriptor *)

Module JsValue.

(** What [JSON.parse] can return, plus [undefined] for an absent
    property.  The script looks at a number only in a boolean position
    and in a template literal, so a number is given by these two
    observations: whether it is truthy (neither zero nor NaN) and its
    rendering [String(x)]. *)
#[warnings="-register-all"]
Inductive t : Type :=
| Undefined
| Null
| Bool (b : bool)
| Number (truthy : bool) (text : string)
| Str (s : string)
| Array (elems : list t)
| Object (props : list (string * t)).

(** [ToBoolean]: the test of [!nsec || !eventId]. *)
Definition ToBoolean (v : t) : bool :=
  match v with
  | Undefined | Null => false
  | Bool b => b
  | Number truthy _ => truthy
  | Str s => JsString.truthy s
  | Array _ | Object _ => true
  end.

(** Whether [ToString] of [v] completes.  An object to which
    [JSON.parse] has given an own property [toString] has lost the method
    of [Object.prototype] (the property holds no function), and its
    [valueOf] returns the object itself: the conversion throws a
    TypeError.  So does the conversion of an array that holds such an
    object, [join] converting each element but [null] and [undefined]. *)
Definition has_own (key : string) (props : list (string * t)) : bool :=
  existsb (fun kv => String.eqb (fst kv) key) props.

Fixpoint stringifies (v : t) : bool :=
  match v with
  | Array elems =>
      (fix each (l : list t) : bool :=
         match l with
         | [] => true
         | x :: l' => stringifies x && each l'
         end) elems
  | Object props => negb (has_own "toString" props)
  | _ => true
  end.

(** [ToString]: what a template literal writes for a [v] that
    [stringifies].  An array is joined with commas, [null] and
    [undefined] elements giving nothing. *)
Fixpoint ToString (v : t) : string :=
  match v with
  | Undefined => "undefined"
  | Null => "null"
  | Bool true => "true"
  | Bool false => "false"
  | Number _ text => text
  | Str s => s
  | Array elems =>
      JsString.join ","
        ((fix each (l : list t) : list string :=
            match l with
            | [] => []
            | (Undefined | Null) :: l' => "" :: each l'
            | x :: l' => ToString x :: each l'
            end) elems)
  | Object _ => "[object Object]"
  end.

Fixpoint lookup (key : string) (props : list (string * t)) : t :=
  match props with
  | [] => Undefined
  | (k, v) :: rest => if String.eqb k key then v else lookup key rest
  end.

End JsValue.

(** ** The outside world: events, oracles and the monad of the script *)

Module Host.

(** A thrown [Error]; the script reads nothing of it but [message]. *)
Record JsError : Type := mkError { message : string }.

(** How a piece of code ends: with a value, with a thrown error, or by
    [process.exit], which no [catch] or [finally] sees. *)
Inductive Completion (A : Type) : Type :=
| Normal (a : A)
| Throw (e : JsError)
| Exit (code : Z).
Arguments Normal {A} a.
Arguments Throw {A} e.
Arguments Exit {A} code.

(** What a call into the runtime answers: a value, or a thrown error. *)
Inductive Answer (A : Type) : Type :=
| Returned (a : A)
| Failed (e : JsError).
Arguments Returned {A} a.
Arguments Failed {A} e.

Definition complete {A} (r : Answer A) : Completion A :=
  match r with
  | Returned a => Normal a
  | Failed e => Throw e
  end.

(** An entry of [fs.readdir(..., { withFileTypes: true })]. *)
Record Dirent : Type := mkDirent { name : string; isDirectory : bool }.

(** One interaction with the outside, with the answer it got. *)
Inductive Event : Type :=
| ConsoleLog (msg : string)
| ConsoleError (msg : string)
| ConsoleWarn (msg : string)
| FsWriteFile (path data : string) (r : Answer unit)
| FsUnlink (path : string) (r : Answer unit)
| FsReaddir (path : string) (r : Answer (list Dirent))
| FsReadFile (path : string) (r : Answer string)
| BunFileExists (path : string) (r : bool)
| BunFileText (path : string) (r : Answer string)
| BunWrite (path data : string) (r : Answer unit)
(** [spawn(argv, {stdout:'pipe', stderr:'pipe'})] and the two reads of
    its output: the answer is the pair (stdout, stderr). *)
| SpawnPipe (argv : list string) (r : Answer (string * string))
(** [spawn(argv, {stdio: inherit})] and [await proc.exited]: the answer
    is the exit code. *)
| SpawnInherit (argv : list JsValue.t) (r : Answer Z)
| ProcessExit (code : Z).

(** The trace of a run, newest event first. *)
Definition Trace : Type := list Event.

(** The environment of a run.  The pure library functions ([path],
    [JSON]) are taken as they are; each oracle answers a request made
    when [n] interactions have already taken place. *)
Record World : Type := mkWorld {
  env : string -> option string;          (* process.env *)
  cwd : string;                           (* process.cwd() *)
  path_join : list string -> string;
  path_resolve : string -> string;
  JSON_parse : string -> Answer JsValue.t;
  (* message of the TypeError of destructuring null or undefined *)
  destructure_message : string;
  (* message of the TypeError of a conversion to a string that fails *)
  ToString_message : string;
  Date_now : nat -> Z;
  fs_writeFile : nat -> string -> string -> Answer unit;
  fs_unlink : nat -> string -> Answer unit;
  fs_readdir : nat -> string -> Answer (list Dirent);
  fs_readFile : nat -> string -> Answer string;
  Bun_file_exists : nat -> string -> bool;
  Bun_file_text : nat -> string -> Answer string;
  Bun_write : nat -> string -> string -> Answer unit;
  Bun_spawn_pipe : nat -> list string -> Answer (string * string);
  Bun_spawn_inherit : nat -> list JsValue.t -> Answer Z
}.

(** Code of the script: it reads the world, extends the trace, and
    completes. *)
Definition M (A : Type) : Type := World -> Trace -> Completion A * Trace.

Definition ret {A} (a : A) : M A := fun _ t => (Normal a, t).

Definition bind {A B} (m : M A) (f : A -> M B) : M B :=
  fun w t =>
    match m w t with
    | (Normal a, t') => f a w t'
    | (Throw e, t') => (Throw e, t')
    | (Exit c, t') => (Exit c, t')
    end.

(** [throw new Error(msg)] *)
Definition throw {A} (msg : string) : M A :=
  fun _ t => (Throw (mkError msg), t).

(** A completion computed without interaction, e.g. by [JSON.parse]. *)
Definition lift {A} (f : World -> Answer A) : M A :=
  fun w t => (complete (f w), t).

(** A value read from the world without interaction. *)
Definition asks {A} (f : World -> A) : M A :=
  fun w t => (Normal (f w), t).

(** [Date.now()] *)
Definition now : M Z := fun w t => (Normal (Date_now w (length t)), t).

(** A request to the outside: the oracle answers at the current time and
    the event records request and answer. *)
Definition request {A} (oracle : World -> nat -> Answer A)
    (ev : Answer A -> Event) : M A :=
  fun w t => let r := oracle w (length t) in (complete r, ev r :: t).

Definition emit (e : Event) : M unit := fun _ t => (Normal tt, e :: t).

(** [try { m } catch (error) { h error }] *)
Definition tryCatch {A} (m : M A) (h : JsError -> M A) : M A :=
  fun w t =>
    match m w t with
    | (Throw e, t') => h e w t'
    | other => other
    end.

(** [try { m } finally { fin }]: [fin] runs after a value and after a
    throw, and its own throw replaces the completion of [m]. *)
Definition tryFinally {A} (m : M A) (fin : M unit) : M A :=
  fun w t =>
    match m w t with
    | (Exit c, t') => (Exit c, t')
    | (r, t') =>
        match fin w t' with
        | (Normal _, t'') => (r, t'')
        | (Throw e, t'') => (Throw e, t'')
        | (Exit c, t'') => (Exit c, t'')
        end
    end.

Definition console_log (msg : string) : M unit := emit (ConsoleLog msg).
Definition console_error (msg : string) : M unit := emit (ConsoleError msg).
Definition console_warn (msg : string) : M unit := emit (ConsoleWarn msg).

Definition writeFile (path data : string) : M unit :=
  request (fun w n => fs_writeFile w n path data) (FsWriteFile path data).
Definition unlink (path : string) : M unit :=
  request (fun w n => fs_unlink w n path) (FsUnlink path).
Definition readdir (path : string) : M (list Dirent) :=
  request (fun w n => fs_readdir w n path) (FsReaddir path).
Definition readFile (path : string) : M string :=
  request (fun w n => fs_readFile w n path) (FsReadFile path).
Definition file_exists (path : string) : M bool :=
  fun w t => let b := Bun_file_exists w (length t) path in
             (Normal b, BunFileExists path b :: t).
Definition file_text (path : string) : M string :=
  request (fun w n => Bun_file_text w n path) (BunFileText path).
Definition write (path data : string) : M unit :=
  request (fun w n => Bun_write w n path data) (BunWrite path data).
Definition spawn_pipe (argv : list string) : M (string * string) :=
  request (fun w n => Bun_spawn_pipe w n argv) (SpawnPipe argv).
Definition spawn_inherit (argv : list JsValue.t) : M Z :=
  request (fun w n => Bun_spawn_inherit w n argv) (SpawnInherit argv).

(** [process.exit(code)] *)
Definition process_exit {A} (code : Z) : M A :=
  fun _ t => (Exit code, ProcessExit code :: t).

(** [process.env.NAME || fallback] *)
Definition env_or (w : World) (name fallback : string) : string :=
  match env w name with
  | Some v => if JsString.truthy v then v else fallback
  | None => fallback
  end.

End Host.

Declare Scope js_scope.
Delimit Scope js_scope with js.
Notation "x <- m1 ;; m2" := (Host.bind m1 (fun x => m2))
  (at level 61, m1 at next level, right associativity) : js_scope.
Notation "' pat <- m1 ;; m2" :=
  (Host.bind m1 (fun x => match x with pat => m2 end))
  (at level 61, pat pattern, m1 at next level, right associativity) : js_scope.
Notation "m1 ;; m2" := (Host.bind m1 (fun _ => m2))
  (at level 61, right associativity) : js_scope.

(** ** The script *)

Module TenexTask.
Import Host JsString.
Local Open Scope js_scope.

(** *** Configuration read from the environment *)

Definition TENEX_PROJECTS_DIR (w : World) : string :=
  env_or w "TENEX_PROJECTS_DIR" "<path-to-tenex-projects>".
Definition FIND_PROJECT_MODEL (w : World) : string :=
  env_or w "FIND_PROJECT_MODEL" "llama3.2".
Definition TASK_MODEL (w : World) : string :=
  env_or w "TASK_MODEL" "qwen2.5".
Definition RELAYS (w : World) : string :=
  env_or w "RELAYS" "wss://relay.primal.net wss://relay.damus.io".

(** *** queryOllama *)

Definition queryOllama (model prompt : string) : M string :=
  console_log ("Querying Ollama with model: " ++ model) ;;
  stamp <- now ;;
  tempPromptPath <-
    asks (fun w => path_join w [cwd w; "temp_prompt_" ++ ofZ stamp ++ ".txt"]) ;;
  writeFile tempPromptPath prompt ;;
  tryFinally
    ('(response, error) <-
       spawn_pipe ["sh"; "-c"; "cat " ++ tempPromptPath ++ " | ollama run " ++ model] ;;
     (if truthy error && truthy (trim error)
      then console_error ("Ollama error: " ++ error)
      else ret tt) ;;
     ret (trim response))
    (tryCatch (unlink tempPromptPath)
       (fun _ => console_warn
          ("Warning: Could not delete temporary prompt file: " ++ tempPromptPath))).

(** *** getProjectDirectories *)

Definition getProjectDirectories : M (list string) :=
  root <- asks TENEX_PROJECTS_DIR ;;
  console_log ("Getting project directories from: " ++ root) ;;
  tryCatch
    (entries <- readdir root ;;
     let directories := map name (filter isDirectory entries) in
     console_log ("Found " ++ ofNat (List.length directories) ++ " project directories") ;;
     ret directories)
    (fun error =>
       console_error ("Error reading project directories: " ++ message error) ;;
       ret []).

(** *** findProjectName *)

Definition findProjectName_prompt (transcriptContent : string)
    (projectDirs : list string) : string :=
"
You are tasked with identifying the name of a project mentioned in the following transcript.
The project name should match one of the directories in the list provided below.
Note that the directory names may have a random string suffix that is not part of the actual project name.
For example, the project " ++ DQ ++ "Shipyard" ++ DQ ++ " might be in a directory called " ++ DQ ++ "Shipyard-rux5kf" ++ DQ ++ ".

Available project directories:
" ++ join LF projectDirs ++ "

Transcript:
" ++ transcriptContent ++ "

Based on the transcript, which project directory is being referred to?
Respond with ONLY the exact directory name from the list above, nothing else.
".

(** The predicate handed to [projectDirs.find]: one disjunction of the
    four comparisons, evaluated on one directory. *)
Definition findProjectName_matches (response dir : string) : bool :=
  String.eqb dir response
  || String.eqb (toLowerCase dir) (toLowerCase response)
  || startsWith dir response
  || startsWith response (first (split "-"%char dir)).

Definition findProjectName (transcriptContent : string)
    (projectDirs : list string) : M string :=
  console_log "Finding project name from transcript..." ;;
  model <- asks FIND_PROJECT_MODEL ;;
  response <- queryOllama model (findProjectName_prompt transcriptContent projectDirs) ;;
  let notFound : M string :=
    console_error ("Could not match response " ++ DQ ++ response ++ DQ
                   ++ " to any project directory") ;;
    throw "Could not identify project directory" in
  match find (findProjectName_matches response) projectDirs with
  | Some matchedDir =>
      if truthy matchedDir
      then console_log ("Identified project directory: " ++ matchedDir) ;;
           ret matchedDir
      else notFound
  | None => notFound
  end.

(** *** readTenexConfig *)

Definition readTenexConfig (projectDir : string) : M JsValue.t :=
  root <- asks TENEX_PROJECTS_DIR ;;
  configPath <- asks (fun w => path_join w [root; projectDir; ".tenex.json"]) ;;
  console_log ("Reading Tenex config from: " ++ configPath) ;;
  tryCatch
    (configContent <- readFile configPath ;;
     lift (fun w => JSON_parse w configContent))
    (fun error =>
       console_error ("Error reading Tenex config: " ++ message error) ;;
       throw ("Could not read .tenex.json for project " ++ projectDir)).

(** *** readFileIfExists *)

Definition readFileIfExists (filePath : string) : M string :=
  tryCatch (readFile filePath)
    (fun _ => console_log ("File not found: " ++ filePath) ;; ret "").

(** *** createDetailedTask *)

Definition createDetailedTask_contextInfo
    (specContent architectureContent : string) : list string :=
  (if truthy specContent
   then ["<SPEC>" ++ LF ++ specContent ++ "</SPEC>"] else [])
  ++
  (if truthy architectureContent
   then ["<ARCHITECTURE>" ++ LF ++ architectureContent ++ "</ARCHITECTURE>"]
   else []).

Definition createDetailedTask_contextSection
    (specContent architectureContent : string) : string :=
  let contextInfo := createDetailedTask_contextInfo specContent architectureContent in
  if (0 <? List.length contextInfo)%nat
  then LF ++ "For context, here are the project's specification and architecture documents:"
       ++ LF ++ LF ++ join (LF ++ LF) contextInfo
  else "".

Definition createDetailedTask_prompt
    (transcriptContent specContent architectureContent : string) : string :=
"
You are tasked with creating a detailed task for an LLM to work on based on the following transcript.
The task should include a clear title, a careful explanation, and high-level action items.

" ++ createDetailedTask_contextSection specContent architectureContent ++ "

-- END OF CONTEXT --

What follows is the task requirement, this is the user's description of what needs to be speced:

<TASK-DETAILS>
" ++ transcriptContent ++ "
</TASK-DETAILS>

Create a detailed task with:
1. A clear, concise title as the first line (this will be extracted as the task title) (no more than 15 words)
2. A thorough explanation of what needs to be done
3. Specific action items or steps to complete the task, do not include filenames, function names, or any other specific implementation details. Just a high-level action items of what is involved to accomplish this task.
4. Any relevant technical considerations based on the context provided.

Provide the title as the first line with nothing else, as we'll extract just that line as the task title.
".

Definition createDetailedTask
    (transcriptContent specContent architectureContent : string) : M string :=
  console_log "Creating detailed task..." ;;
  model <- asks TASK_MODEL ;;
  response <- queryOllama model
    (createDetailedTask_prompt transcriptContent specContent architectureContent) ;;
  ret (trim response).

(** *** publishNostrEvent

    [nsec] and [eventId] come out of the parsed descriptor unchecked, so
    they are JavaScript values: [nsec] goes into the argument vector as
    it is, [eventId] through a template literal, which throws when the
    value cannot be converted; nothing has been started by then. *)

Definition publishNostrEvent_argv (w : World) (nsec eventId : JsValue.t)
    (taskTitle taskContent : string) : list JsValue.t :=
  let relaysArray := split " "%char (RELAYS w) in
  [JsValue.Str "nak"; JsValue.Str "event";
   JsValue.Str "--sec"; nsec;
   JsValue.Str "-k"; JsValue.Str "1934";
   JsValue.Str "-t"; JsValue.Str ("a=" ++ JsValue.ToString eventId);
   JsValue.Str "-t"; JsValue.Str ("title=" ++ taskTitle);
   JsValue.Str "-c"; JsValue.Str taskContent]
  ++ map JsValue.Str relaysArray.

Definition publishNostrEvent (nsec eventId : JsValue.t)
    (taskTitle taskContent : string) : M bool :=
  console_log "Publishing Nostr event..." ;;
  lift (fun w => if JsValue.stringifies eventId
                 then Returned tt
                 else Failed (mkError (ToString_message w))) ;;
  argv <- asks (fun w => publishNostrEvent_argv w nsec eventId taskTitle taskContent) ;;
  exitCode <- spawn_inherit argv ;;
  if negb (exitCode =? 0)%Z
  then console_error ("Error publishing Nostr event, exit code: " ++ ofZ exitCode) ;;
       ret false
  else console_log "Successfully published Nostr event" ;;
       ret true.

(** *** processTenexTask *)

(** [const { nsec, eventId } = tenexConfig]: a TypeError on [null], the
    two properties of an object, and [undefined] twice on anything else
    [JSON.parse] returns (no string, number, boolean or array has such a
    property). *)
Definition destructure (w : World) (tenexConfig : JsValue.t)
    : Answer (JsValue.t * JsValue.t) :=
  match tenexConfig with
  | JsValue.Undefined | JsValue.Null => Failed (mkError (destructure_message w))
  | JsValue.Object props =>
      Returned (JsValue.lookup "nsec" props, JsValue.lookup "eventId" props)
  | _ => Returned (JsValue.Undefined, JsValue.Undefined)
  end.

(** Steps 1 to 3 of the [try] block: read the transcript, list the
    project directories, find the project. *)
Definition processTenexTask_steps_1_3 (transcriptFilePath : string)
    : M (string * string) :=
  (* 1. Read the transcript file *)
  absolutePath <- asks (fun w => path_resolve w transcriptFilePath) ;;
  found <- file_exists absolutePath ;;
  (if negb found
   then throw ("Transcript file not found: " ++ absolutePath)
   else ret tt) ;;
  transcriptContent <- file_text absolutePath ;;
  console_log ("Read transcript content ("
               ++ ofNat (String.length transcriptContent) ++ " chars)") ;;
  (* 2. Get list of project directories *)
  projectDirs <- getProjectDirectories ;;
  (if (List.length projectDirs =? 0)%nat
   then root <- asks TENEX_PROJECTS_DIR ;;
        throw ("No project directories found in " ++ root)
   else ret tt) ;;
  (* 3. Find the project name using Ollama *)
  projectDir <- findProjectName transcriptContent projectDirs ;;
  ret (transcriptContent, projectDir).

(** Steps 4 to 10 of the [try] block, for the project found. *)
Definition processTenexTask_steps_4_10 (transcriptContent projectDir : string)
    : M unit :=
  (* 4. Read the .tenex.json file *)
  tenexConfig <- readTenexConfig projectDir ;;
  '(nsec, eventId) <- lift (fun w => destructure w tenexConfig) ;;
  (if negb (JsValue.ToBoolean nsec) || negb (JsValue.ToBoolean eventId)
   then throw "Missing nsec or eventId in .tenex.json"
   else ret tt) ;;
  (* 5. Read context files *)
  root <- asks TENEX_PROJECTS_DIR ;;
  specPath <- asks (fun w => path_join w [root; projectDir; "context"; "SPEC.md"]) ;;
  architecturePath <-
    asks (fun w => path_join w [root; projectDir; "context"; "ARCHITECTURE.md"]) ;;
  specContent <- readFileIfExists specPath ;;
  architectureContent <- readFileIfExists architecturePath ;;
  (* 6. Create detailed task using Ollama *)
  taskContent <- createDetailedTask transcriptContent specContent architectureContent ;;
  (* 7. Extract the first line as the task title *)
  let lines := split newline taskContent in
  let taskTitle := first lines in
  (* 8. Write task content to a temporary file *)
  tempFilePath <- asks (fun w => path_join w [cwd w; "temp_task.md"]) ;;
  write tempFilePath taskContent ;;
  console_log ("Wrote task content to temporary file: " ++ tempFilePath) ;;
  (* 9. Publish as Nostr event *)
  published <- publishNostrEvent nsec eventId taskTitle taskContent ;;
  (if published : bool
   then console_log "Task successfully published as Nostr event"
   else console_error "Failed to publish task as Nostr event") ;;
  (* 10. Clean up temporary file *)
  tryCatch (unlink tempFilePath)
    (fun _ => console_warn
       ("Warning: Could not delete temporary file: " ++ tempFilePath)) ;;
  console_log "Script finished successfully".

Definition processTenexTask (transcriptFilePath : string) : M unit :=
  console_log ("Processing Tenex task from: " ++ transcriptFilePath) ;;
  tryCatch
    ('(transcriptContent, projectDir) <- processTenexTask_steps_1_3 transcriptFilePath ;;
     processTenexTask_steps_4_10 transcriptContent projectDir)
    (fun error =>
       console_error ("Error during processing: " ++ message error) ;;
       process_exit 1).

(** The call [processTenexTask(transcriptFilePath)] of the last line of
    the script, from its start to its end: how it completes, and the
    trace in the order of time.  The access check of the top level is
    not part of it: see [Script.script]. *)
Definition run (w : World) (transcriptFilePath : string)
    : Completion unit * Trace :=
  let (c, t) := processTenexTask transcriptFilePath w [] in (c, rev t).

End TenexTask.

(** ** The top level of the script *)

Module Script.
Import Host JsString TenexTask.
Local Open Scope list_scope.

(** A request that [processTenexTask] waits for with [await]. *)
Inductive Request : Type :=
| WriteFileRequest (path data : string)
| UnlinkRequest (path : string)
| ReaddirRequest (path : string)
| ReadFileRequest (path : string)
| ExistsRequest (path : string)
| TextRequest (path : string)
| WriteRequest (path data : string)
| PipeRequest (argv : list string)
| InheritRequest (argv : list JsValue.t).

(** The request an event answers; the console and [process.exit] are
    not waited for. *)
Definition awaited (e : Event) : option Request :=
  match e with
  | FsWriteFile path data _ => Some (WriteFileRequest path data)
  | FsUnlink path _ => Some (UnlinkRequest path)
  | FsReaddir path _ => Some (ReaddirRequest path)
  | FsReadFile path _ => Some (ReadFileRequest path)
  | BunFileExists path _ => Some (ExistsRequest path)
  | BunFileText path _ => Some (TextRequest path)
  | BunWrite path data _ => Some (WriteRequest path data)
  | SpawnPipe argv _ => Some (PipeRequest argv)
  | SpawnInherit argv _ => Some (InheritRequest argv)
  | ConsoleLog _ | ConsoleError _ | ConsoleWarn _ | ProcessExit _ => None
  end.

(** One step of the whole script. *)
Inductive Step : Type :=
(** [fs.access(path)] is called by the top level, which does not wait
    for the answer. *)
| FsAccess (path : string)
(** An interaction, with the answer it got. *)
| Did (e : Event)
(** A request of [processTenexTask] that is still unanswered when the
    process exits. *)
| Waiting (r : Request).

(** The [catch] block of the access check. *)
Definition access_denied (root : string) : list Step :=
  [Did (ConsoleError
          ("Error: Directory " ++ root ++ " does not exist or is not accessible."));
   Did (ConsoleError
          "Please set the TENEX_PROJECTS_DIR environment variable to a valid directory.");
   Did (ConsoleError "Example: export TENEX_PROJECTS_DIR=/path/to/tenex-projects");
   Did (ProcessExit 1)].

(** What [processTenexTask] has done when the failure of the access
    check is delivered, [delay] of its requests having been answered
    before: it is waiting for the next one.  [None] when its trace [tr]
    ends first.  Code runs to its next [await] without interruption, so
    no other moment exists; every [delay] is allowed, the order in which
    the runtime answers requests not being fixed.  A request that fails
    as soon as it is made counts as waited for like the others, which
    adds moments and leaves none out. *)
Fixpoint interrupt (delay : nat) (tr : list Event) : option (list Step) :=
  match tr with
  | [] => None
  | ProcessExit _ :: _ => None
  | e :: tr' =>
      match awaited e, delay with
      | Some r, O => Some [Waiting r]
      | Some _, S delay' => option_map (cons (Did e)) (interrupt delay' tr')
      | None, _ => option_map (cons (Did e)) (interrupt delay tr')
      end
  end.

Definition usage : string := "Usage: bun tenex_task.ts <path_to_transcript_file>".

(** The script run with the arguments [argv] ([process.argv]), the
    access check being answered by [access].  The top level calls
    [fs.access] and goes on; with fewer than three arguments it prints
    the usage line and exits at once, otherwise it calls
    [processTenexTask].  An access that succeeds changes nothing.  One
    that fails prints its three lines and exits with status 1 at the
    moment given by [delay], or after a [processTenexTask] that has
    completed; a [processTenexTask] that has exited first has ended the
    process. *)
Definition script (access : Answer unit) (delay : nat) (argv : list string)
    (w : World) : Completion unit * list Step :=
  let root := TENEX_PROJECTS_DIR w in
  if (List.length argv <? 3)%nat
  then (Exit 1, [FsAccess root; Did (ConsoleError usage); Did (ProcessExit 1)])
  else
    let (c, tr) := run w (nth 2 argv "undefined") in
    match access with
    | Returned _ => (c, FsAccess root :: map Did tr)
    | Failed _ =>
        match interrupt delay tr with
        | Some steps => (Exit 1, FsAccess root :: steps ++ access_denied root)
        | None =>
            match c with
            | Normal _ =>
                (Exit 1, FsAccess root :: map Did tr ++ access_denied root)
            | _ => (c, FsAccess root :: map Did tr)
            end
        end
    end.

End Script.

(** ** Kinds of events *)

Module Events.
Import Host.

(** A text-generation call: the piped [sh -c "cat ... | ollama run ..."]. *)
Definition is_generation (e : Event) : bool :=
  match e with SpawnPipe _ _ => true | _ => false end.

(** A publication call: the [nak event ...] process. *)
Definition is_publication (e : Event) : bool :=
  match e with SpawnInherit _ _ => true | _ => false end.

(** Any child process. *)
Definition is_spawn (e : Event) : bool := is_generation e || is_publication e.

Definition no_publication (e : Event) : Prop := is_publication e = false.
Definition no_spawn (e : Event) : Prop := is_spawn e = false.

End Events.

(** ** A concrete world, for running the script inside the proof assistant *)

Module Demo.
Import Host JsString.

Definition ENOENT : JsError := mkError "ENOENT: no such file or directory".

(** A workspace whose root lists [entries]; the generation command
    answers [answer1] to its first call and [answer2] afterwards, the
    descriptor of [Shipyard-rux5kf] is the only readable file and
    parses to [config], and [nak] exits with [nakExit]. *)
Definition world (entries : list Dirent) (answer1 answer2 : string)
    (config : Answer JsValue.t) (nakExit : Z) : World :=
  {| env := fun _ => None;
     cwd := "/work";
     path_join := join "/";
     path_resolve := fun p => "/work/" ++ p;
     JSON_parse := fun _ => config;
     destructure_message := "null is not an object";
     ToString_message := "No default value";
     Date_now := fun n => (1700000000000 + Z.of_nat n)%Z;
     fs_writeFile := fun _ _ _ => Returned tt;
     fs_unlink := fun _ _ => Returned tt;
     fs_readdir := fun _ _ => Returned entries;
     fs_readFile := fun _ p =>
       if String.eqb p "<path-to-tenex-projects>/Shipyard-rux5kf/.tenex.json"
       then Returned "{}" else Failed ENOENT;
     Bun_file_exists := fun _ _ => true;
     Bun_file_text := fun _ _ => Returned "For Shipyard: add dark mode";
     Bun_write := fun _ _ _ => Returned tt;
     Bun_spawn_pipe := fun n _ =>
       Returned (if (n <? 12)%nat then answer1 else answer2, "");
     Bun_spawn_inherit := fun _ _ => Returned nakExit |}.

Definition shipyard : list Dirent :=
  [mkDirent "Shipyard-rux5kf" true; mkDirent "notes.txt" false;
   mkDirent "Backend-ab12" true].

Definition credentials : JsValue.t :=
  JsValue.Object [("title", JsValue.Str "Shipyard");
                  ("nsec", JsValue.Str "nsec1demo");
                  ("eventId", JsValue.Str "31933:demo:shipyard")].

Definition task : string :=
  "Add dark mode" ++ LF ++ "Detailed body text...".

Definition transcript : string := "For Shipyard: add dark mode".

(** A world in which the generation command answers [answer]. *)
Definition answering (answer : string) : World :=
  world shipyard answer answer (Returned credentials) 0.

(** A world in which every step succeeds, up to the exit code of [nak]. *)
Definition publishing (nakExit : Z) : World :=
  world shipyard "Shipyard" (LF ++ task ++ LF) (Returned credentials) nakExit.

(** The argument vector of the publication call in that world. *)
Definition published_argv : list JsValue.t :=
  map JsValue.Str
    ["nak"; "event"; "--sec"; "nsec1demo"; "-k"; "1934";
     "-t"; "a=31933:demo:shipyard"; "-t"; "title=Add dark mode";
     "-c"; task; "wss://relay.primal.net"; "wss://relay.damus.io"].

(** A world whose descriptor has no [eventId]. *)
Definition incomplete_descriptor : JsValue.t :=
  JsValue.Object [("nsec", JsValue.Str "nsec1demo")].
Definition without_event_id : World :=
  world shipyard "Shipyard" task (Returned incomplete_descriptor) 0.

(** A world whose workspace root holds no directory. *)
Definition without_projects : World :=
  world [mkDirent "notes.txt" false] "Shipyard" task (Returned credentials) 0.

(** A world whose task generation prints white space only. *)
Definition blank_output : string := " " ++ LF.
Definition generating_blank : World :=
  world shipyard "Shipyard" blank_output (Returned credentials) 0.

End Demo.

(** ** Notions used to state the properties *)

Module Statements.
Import Host Events JsString TenexTask.

(** No occurrence of the character [c] in [s]. *)
Fixpoint free_of (c : ascii) (s : string) : Prop :=
  match s with
  | "" => True
  | String a s' => a <> c /\ free_of c s'
  end.

(** [line] is the part of [s] before the first [sep], or all of [s]
    when [sep] does not occur in it. *)
Definition leading_segment (sep : ascii) (s line : string) : Prop :=
  free_of sep line /\
  (line = s \/ exists rest, s = line ++ String sep rest).

(** A string made of white space only (the empty string included). *)
Fixpoint blank (s : string) : Prop :=
  match s with
  | "" => True
  | String c s' => isWhiteSpace c = true /\ blank s'
  end.

(** The directory names an answer of [fs.readdir] stands for in
    [getProjectDirectories]: the entries that are directories, and
    nothing when the call failed. *)
Definition inventory (answer : Answer (list Dirent)) : list string :=
  match answer with
  | Returned entries => map name (filter isDirectory entries)
  | Failed _ => []
  end.

(** The pieces of the context section of the task prompt. *)
Definition context_header : string :=
  LF ++ "For context, here are the project's specification and architecture documents:"
     ++ LF ++ LF.
Definition spec_block (doc : string) : string :=
  "<SPEC>" ++ LF ++ doc ++ "</SPEC>".
Definition architecture_block (doc : string) : string :=
  "<ARCHITECTURE>" ++ LF ++ doc ++ "</ARCHITECTURE>".

(** [s.includes(needle)]. *)
Fixpoint occurs (needle s : string) : bool :=
  startsWith s needle
  || match s with
     | "" => false
     | String _ s' => occurs needle s'
     end.

(** Some end of [s] is a beginning of [needle] that [needle] goes
    beyond: an occurrence of [needle] could start there in a longer
    text. *)
Fixpoint opens (needle s : string) : bool :=
  match s with
  | "" => false
  | String _ s' =>
      (startsWith needle s && negb (startsWith s needle)) || opens needle s'
  end.

(** The text of the task prompt around the context section and the
    transcript. *)
Definition task_prompt_opening : string :=
"
You are tasked with creating a detailed task for an LLM to work on based on the following transcript.
The task should include a clear title, a careful explanation, and high-level action items.

".

Definition task_prompt_before_transcript : string :=
"

-- END OF CONTEXT --

What follows is the task requirement, this is the user's description of what needs to be speced:

<TASK-DETAILS>
".

Definition task_prompt_closing : string :=
"
</TASK-DETAILS>

Create a detailed task with:
1. A clear, concise title as the first line (this will be extracted as the task title) (no more than 15 words)
2. A thorough explanation of what needs to be done
3. Specific action items or steps to complete the task, do not include filenames, function names, or any other specific implementation details. Just a high-level action items of what is involved to accomplish this task.
4. Any relevant technical considerations based on the context provided.

Provide the title as the first line with nothing else, as we'll extract just that line as the task title.
".

(** The outputs of the generation calls of a trace, and the argument
    vectors of its publication calls, in the order of the trace. *)
Definition generation_outputs (tr : Trace) : list string :=
  flat_map (fun e => match e with
                     | SpawnPipe _ (Returned (stdout, _)) => [stdout]
                     | _ => []
                     end) tr.
Definition publication_calls (tr : Trace) : list (list JsValue.t) :=
  flat_map (fun e => match e with
                     | SpawnInherit argv _ => [argv]
                     | _ => []
                     end) tr.

(** In the trace [tr] (in the order of time) the publication call
    [SpawnInherit argv r] comes after a generation call with no other
    child process in between; with [T] the output of that generation
    call trimmed twice, the title tag of [argv] carries line zero of [T]
    and its content is [T] itself. *)
Definition publishes_generated_text (w : World) (tr : Trace)
    (argv : list JsValue.t) (r : Answer Z) : Prop :=
  exists before cmd stdout stderr between after nsec eventId,
    tr = (before ++ SpawnPipe cmd (Returned (stdout, stderr))
                 :: between ++ SpawnInherit argv r :: after)%list
    /\ Forall no_spawn between
    /\ let T := trim (trim stdout) in
       let title := first (split newline T) in
       argv = publishNostrEvent_argv w nsec eventId title T
       /\ leading_segment newline T title.

(** The text [T] returned by [createDetailedTask], which took the trace
    from [t] to [t'], is the trimmed standard output of its one
    generation call; its line zero starts with a character that is not
    white space when that output holds one, and is empty when the output
    is white space only. *)
Definition titled_by_trimmed_output (t : Trace) (T : string) (t' : Trace) : Prop :=
  exists post cmd stdout stderr pre,
    t' = (post ++ SpawnPipe cmd (Returned (stdout, stderr)) :: pre ++ t)%list
    /\ Forall no_spawn post
    /\ T = trim stdout
    /\ let title := first (split newline T) in
       (blank stdout -> T = "" /\ title = "")
       /\ (~ blank stdout ->
           exists c rest, title = String c rest /\ isWhiteSpace c = false).

(** The trace [tr] ends with: the publication call that exited with
    [code], the error logged by [publishNostrEvent], the failure logged
    by its caller, the deletion of the temporary task file (with a
    warning when the deletion fails), and the closing log line. *)
Definition reports_failure_then_cleans_up (w : World) (tr : Trace)
    (argv : list JsValue.t) (code : Z) : Prop :=
  let tempFilePath := path_join w [cwd w; "temp_task.md"] in
  exists before r,
    tr = (before ++
          [SpawnInherit argv (Returned code);
           ConsoleError ("Error publishing Nostr event, exit code: " ++ ofZ code);
           ConsoleError "Failed to publish task as Nostr event";
           FsUnlink tempFilePath r]
          ++ match r with
             | Returned _ => []
             | Failed _ =>
                 [ConsoleWarn ("Warning: Could not delete temporary file: "
                               ++ tempFilePath)]
             end
          ++ [ConsoleLog "Script finished successfully"])%list.

(** The run on [path] exits with status 1 and, after the events [t1] of
    its first three steps (newest first), does nothing but read the
    descriptor of [dir], which parses to [cfg], log the error and exit. *)
Definition aborts_on_descriptor (w : World) (path dir : string)
    (cfg : JsValue.t) (t1 : Trace) : Prop :=
  let configPath := path_join w [TENEX_PROJECTS_DIR w; dir; ".tenex.json"] in
  exists content,
    JSON_parse w content = Returned cfg /\
    run w path =
    (Exit 1,
     (rev t1 ++
      [ConsoleLog ("Reading Tenex config from: " ++ configPath);
       FsReadFile configPath (Returned content);
       ConsoleError "Error during processing: Missing nsec or eventId in .tenex.json";
       ProcessExit 1])%list).

End Statements.

(** ** Notions used to state further properties of the script *)

Module CoverageStatements.
Import Host Events JsString TenexTask Script Statements.
Local Open Scope list_scope.

(** The command [queryOllama] hands to [spawn]. *)
Definition ollama_command (path model : string) : list string :=
  ["sh"; "-c"; ("cat " ++ path ++ " | ollama run " ++ model)%string].

(** What [queryOllama] completes with, given the answer of its command. *)
Definition ollama_result (a : Answer (string * string)) : Completion string :=
  match a with
  | Returned (stdout, _) => Normal (trim stdout)
  | Failed e => Throw e
  end.

(** The error line [queryOllama] logs for a standard error output that is
    not white space only. *)
Definition stderr_report (a : Answer (string * string)) : list Event :=
  match a with
  | Returned (_, stderr) =>
      if truthy (trim stderr)
      then [ConsoleError ("Ollama error: " ++ stderr)] else []
  | Failed _ => []
  end.

(** The warning logged when a deletion fails. *)
Definition unlink_report (warning path : string) (r : Answer unit) : list Event :=
  match r with
  | Returned _ => []
  | Failed _ => [ConsoleWarn (warning ++ path)]
  end.

(** The events of one call of [queryOllama], in the order of time, with
    its completion [c]: either the prompt file could not be written and
    nothing else happened, or it was written, the command was run, and
    the file was deleted. *)
Definition queryOllama_events (model prompt path : string)
    (c : Completion string) (evs : list Event) : Prop :=
  (exists e,
      c = Throw e /\
      evs = [ConsoleLog ("Querying Ollama with model: " ++ model);
             FsWriteFile path prompt (Failed e)])
  \/ (exists u a r,
         c = ollama_result a /\
         evs = [ConsoleLog ("Querying Ollama with model: " ++ model);
                FsWriteFile path prompt (Returned u);
                SpawnPipe (ollama_command path model) a]
               ++ stderr_report a
               ++ [FsUnlink path r]
               ++ unlink_report "Warning: Could not delete temporary prompt file: "
                    path r).

(** [d] is the first entry of [dirs] that satisfies the predicate of
    [find] for [response], and is not the empty string. *)
Definition resolved_from (dirs : list string) (response d : string) : Prop :=
  d <> ""%string
  /\ findProjectName_matches response d = true
  /\ exists pre post,
       dirs = pre ++ d :: post
       /\ Forall (fun x => findProjectName_matches response x = false) pre.

(** The resolution that took the trace from [t] to [t'] and returned [d]
    ran a generation command whose trimmed output resolves to [d]. *)
Definition resolution_evidence (dirs : list string) (t : Trace) (d : string)
    (t' : Trace) : Prop :=
  exists evs cmd stdout stderr,
    t' = evs ++ t
    /\ In (SpawnPipe cmd (Returned (stdout, stderr))) evs
    /\ resolved_from dirs (trim stdout) d.

Definition no_exit_event (e : Event) : Prop :=
  match e with ProcessExit _ => False | _ => True end.

(** A run either completes, its last event being the closing log line,
    or exits with status 1, its last two events being the error line of
    the [catch] block and the exit; [process.exit] occurs nowhere else. *)
Definition ends_in_order (c : Completion unit) (tr : Trace) : Prop :=
  (c = Normal tt
   /\ exists before,
        tr = before ++ [ConsoleLog "Script finished successfully"]
        /\ Forall no_exit_event before)
  \/ (c = Exit 1
      /\ exists before msg,
           tr = before ++ [ConsoleError ("Error during processing: " ++ msg);
                           ProcessExit 1]
           /\ Forall no_exit_event before).

(** The argument vectors of the generation calls of a trace, whatever
    their answers, in the order of the trace. *)
Definition generation_commands (tr : Trace) : list (list string) :=
  flat_map (fun e => match e with
                     | SpawnPipe argv _ => [argv]
                     | _ => []
                     end) tr.

(** The child processes of a run: no more than the project-resolution
    command, then the task-synthesis command, then one publication. *)
Definition within_call_budget (w : World) (tr : Trace) : Prop :=
  exists p1 p2,
    let g1 := ollama_command p1 (FIND_PROJECT_MODEL w) in
    let g2 := ollama_command p2 (TASK_MODEL w) in
    (generation_commands tr = [] /\ publication_calls tr = [])
    \/ (generation_commands tr = [g1] /\ publication_calls tr = [])
    \/ (generation_commands tr = [g1; g2] /\ length (publication_calls tr) <= 1).

(** The publication call [SpawnInherit argv r] directly follows the write
    of the temporary task file, which holds the published content, and
    carries the [nsec] and [eventId] properties, both truthy, of the
    object that the descriptor [.tenex.json] of a directory [dir], read
    earlier, parses to; [eventId] is a value that can be converted to a
    string. *)
Definition publishes_with_credentials (w : World) (tr : Trace)
    (argv : list JsValue.t) (r : Answer Z) : Prop :=
  let tempFilePath := path_join w [cwd w; "temp_task.md"%string] in
  exists before after dir content props T,
    let configPath :=
      path_join w [TENEX_PROJECTS_DIR w; dir; ".tenex.json"%string] in
    let nsec := JsValue.lookup "nsec" props in
    let eventId := JsValue.lookup "eventId" props in
    tr = before
         ++ [BunWrite tempFilePath T (Returned tt);
             ConsoleLog ("Wrote task content to temporary file: " ++ tempFilePath);
             ConsoleLog "Publishing Nostr event...";
             SpawnInherit argv r]
         ++ after
    /\ In (FsReadFile configPath (Returned content)) before
    /\ JSON_parse w content = Returned (JsValue.Object props)
    /\ JsValue.ToBoolean nsec = true
    /\ JsValue.ToBoolean eventId = true
    /\ JsValue.stringifies eventId = true
    /\ argv = publishNostrEvent_argv w nsec eventId (first (split newline T)) T.

(** The trace ends with the write of the temporary task file, the
    publication command that could not be started, the error line and
    the exit: the file is not deleted. *)
Definition leaves_temp_file_behind (w : World) (tr : Trace)
    (argv : list JsValue.t) (e : JsError) : Prop :=
  let tempFilePath := path_join w [cwd w; "temp_task.md"%string] in
  exists before T,
    tr = before
         ++ [BunWrite tempFilePath T (Returned tt);
             ConsoleLog ("Wrote task content to temporary file: " ++ tempFilePath);
             ConsoleLog "Publishing Nostr event...";
             SpawnInherit argv (Failed e);
             ConsoleError ("Error during processing: " ++ message e);
             ProcessExit 1].

(** [readTenexConfig] took the trace from [t1] to [t2] by a read that
    failed or gave a text [JSON.parse] rejects; the cause is logged, and
    the run exits with status 1 on the error that names the project. *)
Definition aborts_on_unreadable_descriptor (w : World) (path dir : string)
    (t1 t2 : Trace) : Prop :=
  let configPath := path_join w [TENEX_PROJECTS_DIR w; dir; ".tenex.json"%string] in
  exists answer cause,
    match answer with
    | Failed err => cause = err
    | Returned content => JSON_parse w content = Failed cause
    end
    /\ t2 = [ConsoleError ("Error reading Tenex config: " ++ message cause);
             FsReadFile configPath answer;
             ConsoleLog ("Reading Tenex config from: " ++ configPath)] ++ t1
    /\ run w path =
       (Exit 1,
        rev t2 ++
        [ConsoleError
           ("Error during processing: Could not read .tenex.json for project " ++ dir);
         ProcessExit 1]).

(** A generation command that could not be run, followed by the deletion
    of its prompt file. *)
Definition generation_failure_tail (cmd : list string) (e : JsError)
    (tail : list Event) : Prop :=
  exists path r,
    tail = [SpawnPipe cmd (Failed e); FsUnlink path r]
           ++ unlink_report "Warning: Could not delete temporary prompt file: " path r.

Definition aborts_after_generation_failure (tr : Trace) (cmd : list string)
    (e : JsError) : Prop :=
  exists before tail,
    generation_failure_tail cmd e tail
    /\ tr = before ++ tail
            ++ [ConsoleError ("Error during processing: " ++ message e);
                ProcessExit 1].

(** [m] never ends by [process.exit]. *)
Definition returns {A} (m : M A) : Prop :=
  forall w t code, fst (m w t) <> Exit code.

(** The events [evs] (newest first) of a function that makes one
    generation call: no publication, and one generation command with
    [model], or none when the function threw. *)
Definition one_generation {A} (model : string) (c : Completion A)
    (evs : list Event) : Prop :=
  publication_calls (rev evs) = []
  /\ ((exists path, generation_commands (rev evs) = [ollama_command path model])
      \/ (generation_commands (rev evs) = [] /\ exists e, c = Throw e)).

(** Worlds like [Demo.publishing 0] but for one oracle. *)
Definition with_spawn_pipe (w : World)
    (oracle : nat -> list string -> Answer (string * string)) : World :=
  mkWorld (env w) (cwd w) (path_join w) (path_resolve w) (JSON_parse w)
    (destructure_message w) (ToString_message w) (Date_now w) (fs_writeFile w) (fs_unlink w)
    (fs_readdir w) (fs_readFile w) (Bun_file_exists w) (Bun_file_text w)
    (Bun_write w) oracle (Bun_spawn_inherit w).

Definition with_spawn_inherit (w : World)
    (oracle : nat -> list JsValue.t -> Answer Z) : World :=
  mkWorld (env w) (cwd w) (path_join w) (path_resolve w) (JSON_parse w)
    (destructure_message w) (ToString_message w) (Date_now w) (fs_writeFile w) (fs_unlink w)
    (fs_readdir w) (fs_readFile w) (Bun_file_exists w) (Bun_file_text w)
    (Bun_write w) (Bun_spawn_pipe w) oracle.

Definition with_file_exists (w : World) (oracle : nat -> string -> bool) : World :=
  mkWorld (env w) (cwd w) (path_join w) (path_resolve w) (JSON_parse w)
    (destructure_message w) (ToString_message w) (Date_now w) (fs_writeFile w) (fs_unlink w)
    (fs_readdir w) (fs_readFile w) oracle (Bun_file_text w)
    (Bun_write w) (Bun_spawn_pipe w) (Bun_spawn_inherit w).

Definition nak_missing : JsError := mkError "ENOENT: nak".
Definition ollama_missing : JsError := mkError "ENOENT: sh".
Definition syntax_error : JsError := mkError "JSON Parse error: Unexpected EOF".

Definition without_nak : World :=
  with_spawn_inherit (Demo.publishing 0) (fun _ _ => Failed nak_missing).
Definition without_ollama : World :=
  with_spawn_pipe (Demo.publishing 0) (fun _ _ => Failed ollama_missing).
Definition without_transcript : World :=
  with_file_exists (Demo.publishing 0) (fun _ _ => false).
Definition with_malformed_descriptor : World :=
  Demo.world Demo.shipyard "Shipyard" Demo.task (Failed syntax_error) 0.

(** A descriptor whose [eventId] is an object with a property
    [toString], as [JSON.parse] gives for
    [{"nsec": "nsec1demo", "eventId": {"toString": "x"}}]. *)
Definition event_id_object : JsValue.t :=
  JsValue.Object [("nsec", JsValue.Str "nsec1demo");
                  ("eventId", JsValue.Object [("toString", JsValue.Str "x")])].
Definition with_event_id_object : World :=
  Demo.world Demo.shipyard "Shipyard" Demo.task (Returned event_id_object) 0.


Definition no_exit_step (s : Step) : Prop :=
  match s with Did (ProcessExit _) => False | _ => True end.

(** The lines the script can print last before it exits with status 1. *)
Definition last_words (w : World) (access : Answer unit) (lines : list Step) : Prop :=
  lines = [Did (ConsoleError usage)]
  \/ (exists e, access = Failed e
                /\ lines ++ [Did (ProcessExit 1)] = access_denied (TENEX_PROJECTS_DIR w))
  \/ (exists msg, lines = [Did (ConsoleError ("Error during processing: " ++ msg))]).

(** The script either completes, the access check having succeeded and
    its last step being the closing log line, or exits with status 1,
    [process.exit] being its last step and the only one, after one of
    the three kinds of last words. *)
Definition script_ending (w : World) (access : Answer unit)
    (c : Completion unit) (steps : list Step) : Prop :=
  (c = Normal tt
   /\ (exists u, access = Returned u)
   /\ exists before,
        steps = before ++ [Did (ConsoleLog "Script finished successfully")]
        /\ Forall no_exit_step before)
  \/ (c = Exit 1
      /\ exists before lines,
           steps = before ++ lines ++ [Did (ProcessExit 1)]
           /\ Forall no_exit_step before
           /\ last_words w access lines).

End CoverageStatements.

(** ** Facts about the string operations *)

Module JsStringFacts.
Import JsString Statements.

Lemma startsWith_empty (s : string) : startsWith s "" = true.
Proof. destruct s; reflexivity. Qed.

Lemma startsWith_refl (s : string) : startsWith s s = true.
Proof.
  induction s as [|c s IH]; simpl; [reflexivity|].
  now rewrite Ascii.eqb_refl, IH.
Qed.

(** [split] never returns the empty array, so [a[0]] is a string. *)
Lemma split_nonempty (sep : ascii) (s : string) : split sep s <> [].
Proof.
  induction s as [|c s IH]; simpl; [discriminate|].
  destruct (Ascii.eqb c sep); [discriminate|].
  destruct (split sep s); [contradiction | discriminate].
Qed.

Lemma first_split (sep : ascii) (s : string) :
  leading_segment sep s (first (split sep s)).
Proof.
  induction s as [|c s [IHfree IHcut]]; simpl.
  - split; simpl; auto.
  - destruct (Ascii.eqb c sep) eqn:E.
    + apply Ascii.eqb_eq in E; subst c. split; simpl; auto.
      right. now exists s.
    + apply Ascii.eqb_neq in E.
      pose proof (split_nonempty sep s) as NE.
      destruct (split sep s) as [|x xs]; [contradiction|].
      simpl in *. split; [now split|].
      destruct IHcut as [->|[rest ->]]; [now left|].
      right. now exists rest.
Qed.

(** A trimmed string is empty or starts with a character that is not
    white space. *)
Lemma trimStart_head (s : string) :
  trimStart s = "" \/
  exists c r, trimStart s = String c r /\ isWhiteSpace c = false.
Proof.
  induction s as [|c s IH]; simpl; [now left|].
  destruct (isWhiteSpace c) eqn:E; [exact IH|].
  right. now exists c, s.
Qed.

Lemma trimEnd_head (c : ascii) (s : string) :
  isWhiteSpace c = false -> exists r, trimEnd (String c s) = String c r.
Proof.
  intros E. simpl. destruct (trimEnd s).
  - rewrite E. now exists "".
  - now eexists.
Qed.

Lemma trim_head (s : string) :
  trim s = "" \/ exists c r, trim s = String c r /\ isWhiteSpace c = false.
Proof.
  unfold trim. destruct (trimStart_head s) as [->|(c & r & -> & E)].
  - now left.
  - right. destruct (trimEnd_head c r E) as [r' ->]. now exists c, r'.
Qed.

Lemma trimEnd_empty (s : string) : trimEnd s = "" <-> blank s.
Proof.
  induction s as [|c s IH]; simpl; [tauto|].
  destruct (trimEnd s) eqn:E.
  - destruct (isWhiteSpace c); split; intros H; try discriminate; try tauto.
    now destruct H.
  - split; [discriminate|]. intros [_ B]. apply IH in B. discriminate.
Qed.

Lemma trimStart_empty (s : string) : trimStart s = "" <-> blank s.
Proof.
  induction s as [|c s IH]; simpl; [tauto|].
  destruct (isWhiteSpace c); [tauto|].
  split; [discriminate|]. now intros [? _].
Qed.

Lemma trim_empty (s : string) : trim s = "" <-> blank s.
Proof.
  unfold trim. rewrite trimEnd_empty.
  destruct (trimStart_head s) as [E|(c & r & E & W)].
  - rewrite E. simpl. apply trimStart_empty in E. tauto.
  - rewrite E. simpl. rewrite W. split; [intros [? _]; discriminate|].
    intros B. apply trimStart_empty in B. congruence.
Qed.

Lemma trimEnd_idem (s : string) : trimEnd (trimEnd s) = trimEnd s.
Proof.
  induction s as [|c s IH]; simpl; [reflexivity|].
  destruct (trimEnd s) as [|d r] eqn:E.
  - destruct (isWhiteSpace c) eqn:W; simpl; [reflexivity|]. now rewrite W.
  - change (trimEnd (String c (String d r))) with
      (match trimEnd (String d r) with
       | "" => if isWhiteSpace c then "" else String c ""
       | t => String c t
       end).
    rewrite IH. reflexivity.
Qed.

(** Trimming twice, as [createDetailedTask] does after [queryOllama],
    is trimming once. *)
Lemma trim_idem (s : string) : trim (trim s) = trim s.
Proof.
  destruct (trim_head s) as [->|(c & r & E & W)]; [reflexivity|].
  rewrite E. unfold trim at 1. simpl trimStart. rewrite W.
  rewrite <- E. unfold trim. apply trimEnd_idem.
Qed.

End JsStringFacts.

(** ** Reasoning about traces *)

Module TraceFacts.
Import Host Events JsString TenexTask.
Local Open Scope list_scope.

(** [m] leaves the trace it starts from in place and adds only events
    that satisfy [P]. *)
Definition adds {A} (P : Event -> Prop) (m : M A) : Prop :=
  forall w t, exists evs, snd (m w t) = evs ++ t /\ Forall P evs.

Lemma adds_weaken {A} (P Q : Event -> Prop) (m : M A) :
  (forall e, P e -> Q e) -> adds P m -> adds Q m.
Proof.
  intros PQ H w t. destruct (H w t) as (evs & E & F).
  exists evs. split; [exact E|]. eapply Forall_impl; eauto.
Qed.

Lemma adds_nothing {A} (P : Event -> Prop) (m : M A) :
  (forall w t, snd (m w t) = t) -> adds P m.
Proof. intros H w t. exists []. rewrite H. now split. Qed.

Lemma adds_one {A} (P : Event -> Prop) (m : M A) :
  (forall w t, exists e, snd (m w t) = e :: t /\ P e) -> adds P m.
Proof.
  intros H w t. destruct (H w t) as (e & E & Pe).
  exists [e]. rewrite E. split; [reflexivity | now constructor].
Qed.

Lemma adds_ret {A} P (a : A) : adds P (ret a).
Proof. now apply adds_nothing. Qed.

Lemma adds_throw {A} P msg : adds P (@throw A msg).
Proof. now apply adds_nothing. Qed.

Lemma adds_lift {A} P (f : World -> Answer A) : adds P (lift f).
Proof. now apply adds_nothing. Qed.

Lemma adds_asks {A} P (f : World -> A) : adds P (asks f).
Proof. now apply adds_nothing. Qed.

Lemma adds_now P : adds P now.
Proof. now apply adds_nothing. Qed.

Lemma adds_emit (P : Event -> Prop) e : P e -> adds P (emit e).
Proof. intros Pe. apply adds_one. intros. now exists e. Qed.

Lemma adds_request {A} (P : Event -> Prop) oracle (ev : Answer A -> Event) :
  (forall r, P (ev r)) -> adds P (request oracle ev).
Proof. intros H. apply adds_one. intros. eexists. split; [reflexivity|apply H]. Qed.

Lemma adds_file_exists (P : Event -> Prop) path :
  (forall b, P (BunFileExists path b)) -> adds P (file_exists path).
Proof. intros H. apply adds_one. intros. eexists. split; [reflexivity|apply H]. Qed.

Lemma adds_process_exit {A} (P : Event -> Prop) code :
  P (ProcessExit code) -> adds P (@process_exit A code).
Proof. intros H. apply adds_one. intros. eexists. split; [reflexivity|apply H]. Qed.

Lemma adds_bind {A B} P (m : M A) (f : A -> M B) :
  adds P m -> (forall a, adds P (f a)) -> adds P (bind m f).
Proof.
  intros Hm Hf w t. unfold bind.
  destruct (Hm w t) as (e1 & E1 & F1).
  destruct (m w t) as [[a|e|c] t1]; simpl in E1; subst t1; simpl.
  - destruct (Hf a w (e1 ++ t)) as (e2 & E2 & F2).
    exists (e2 ++ e1). rewrite E2, app_assoc. split; [reflexivity|].
    apply Forall_app; now split.
  - now exists e1.
  - now exists e1.
Qed.

Lemma adds_tryCatch {A} P (m : M A) (h : JsError -> M A) :
  adds P m -> (forall e, adds P (h e)) -> adds P (tryCatch m h).
Proof.
  intros Hm Hh w t. unfold tryCatch.
  destruct (Hm w t) as (e1 & E1 & F1).
  destruct (m w t) as [[a|e|c] t1]; simpl in E1; subst t1; simpl.
  - now exists e1.
  - destruct (Hh e w (e1 ++ t)) as (e2 & E2 & F2).
    exists (e2 ++ e1). rewrite E2, app_assoc. split; [reflexivity|].
    apply Forall_app; now split.
  - now exists e1.
Qed.

Lemma adds_tryFinally {A} P (m : M A) (fin : M unit) :
  adds P m -> adds P fin -> adds P (tryFinally m fin).
Proof.
  intros Hm Hf w t. unfold tryFinally.
  destruct (Hm w t) as (e1 & E1 & F1).
  destruct (Hf w (e1 ++ t)) as (e2 & E2 & F2).
  destruct (m w t) as [[a|e|c] t1]; simpl in E1; subst t1;
    try (now exists e1);
    destruct (fin w (e1 ++ t)) as [[[]|e'|c'] t2]; simpl in E2; subst t2; simpl;
    (exists (e2 ++ e1); rewrite app_assoc; split; [reflexivity|];
     apply Forall_app; now split).
Qed.

Create HintDb adds discriminated.

Ltac adds_prim :=
  unfold console_log, console_error, console_warn, writeFile, unlink,
    readdir, readFile, file_text, write, spawn_pipe, spawn_inherit.

(** Follows the shape of a piece of code and checks every event it can
    add; calls to functions of the script are closed by the lemmas of
    the [adds] hint database. *)
Ltac adds_tac :=
  adds_prim;
  repeat first
    [ apply adds_ret | apply adds_throw | apply adds_lift
    | apply adds_asks | apply adds_now
    | apply adds_emit; exact I
    | apply adds_request; intros; exact I
    | apply adds_file_exists; intros; exact I
    | apply adds_process_exit; exact I
    | solve [eauto with adds]
    | solve [eapply adds_weaken; [|solve [eauto with adds]]; now intros []]
    | apply adds_bind; [|intros]
    | apply adds_tryCatch; [|intros]
    | apply adds_tryFinally
    | match goal with
      | |- adds _ (if ?b then _ else _) => destruct b
      | |- adds _ (match ?x with _ => _ end) => destruct x
      | |- adds _ (let _ := _ in _) => cbv zeta
      end ].

(** The events of a text-generation call. *)
Definition ollama_event (e : Event) : Prop :=
  match e with
  | ConsoleLog _ | ConsoleError _ | ConsoleWarn _
  | FsWriteFile _ _ _ | FsUnlink _ _ | SpawnPipe _ _ => True
  | _ => False
  end.

(** The events of reading files and logging. *)
Definition read_event (e : Event) : Prop :=
  match e with
  | ConsoleLog _ | ConsoleError _ | FsReadFile _ _ => True
  | _ => False
  end.

(** The events of listing the workspace root. *)
Definition inventory_event (e : Event) : Prop :=
  match e with
  | ConsoleLog _ | ConsoleError _ | FsReaddir _ _ => True
  | _ => False
  end.

(** Anything but a publication call. *)
Definition unpublished (e : Event) : Prop :=
  match e with SpawnInherit _ _ => False | _ => True end.

(** Anything but a listing of a directory. *)
Definition listing_free (e : Event) : Prop :=
  match e with FsReaddir _ _ => False | _ => True end.

Lemma queryOllama_adds model prompt : adds ollama_event (queryOllama model prompt).
Proof. unfold queryOllama. adds_tac. Qed.
#[export] Hint Resolve queryOllama_adds : adds.

Lemma findProjectName_adds tc dirs : adds ollama_event (findProjectName tc dirs).
Proof. unfold findProjectName. adds_tac. Qed.

Lemma createDetailedTask_adds tc spec arch :
  adds ollama_event (createDetailedTask tc spec arch).
Proof. unfold createDetailedTask. adds_tac. Qed.

Lemma readTenexConfig_adds dir : adds read_event (readTenexConfig dir).
Proof. unfold readTenexConfig. adds_tac. Qed.

Lemma readFileIfExists_adds path : adds read_event (readFileIfExists path).
Proof. unfold readFileIfExists. adds_tac. Qed.

Lemma getProjectDirectories_adds : adds inventory_event getProjectDirectories.
Proof. unfold getProjectDirectories. adds_tac. Qed.

#[export] Hint Resolve findProjectName_adds createDetailedTask_adds
  readTenexConfig_adds readFileIfExists_adds getProjectDirectories_adds : adds.

Lemma steps_1_3_unpublished path :
  adds unpublished (processTenexTask_steps_1_3 path).
Proof. unfold processTenexTask_steps_1_3. adds_tac. Qed.

Lemma steps_4_10_listing_free tc dir :
  adds listing_free (processTenexTask_steps_4_10 tc dir).
Proof. unfold processTenexTask_steps_4_10, publishNostrEvent. adds_tac. Qed.

End TraceFacts.

(** ** Running the script symbolically *)

Module Execution.
Import Host Events JsString TenexTask Statements TraceFacts.
Local Open Scope list_scope.

Ltac exec_unfold H :=
  unfold console_log, console_error, console_warn,
    writeFile, unlink, readdir, readFile, file_exists, file_text, write,
    spawn_pipe, spawn_inherit, process_exit in H;
  unfold bind, ret, throw, lift, asks, now, request, emit, tryCatch,
    tryFinally, complete in H.

(** One step: the innermost thing the code in [H] is waiting for (an
    answer of the world, a test, the completion of a called function) is
    split into its cases. *)
Ltac exec_step H :=
  cbv beta iota zeta in H;
  match type of H with
  | context [match ?m with _ => _ end] =>
      lazymatch m with
      | context [match _ with _ => _ end] => fail
      | _ => let E := fresh "E" in destruct m eqn:E
      end
  end.

Ltac exec H := exec_unfold H; repeat exec_step H; cbv beta iota zeta in H.

(** Replaces the trace a called function returned by the events it added,
    with what is known of them. *)
Ltac called lemma E :=
  let evs := fresh "evs" in
  let Et := fresh "Et" in
  let F := fresh "F" in
  match type of E with
  | _ ?w ?t = (_, ?t') =>
      destruct (lemma w t) as (evs & Et & F);
      rewrite E in Et; cbn [snd] in Et; subst t'; clear E
  end.

Ltac trace_facts :=
  repeat match goal with
  | E : processTenexTask_steps_1_3 ?p _ _ = _ |- _ =>
      called (steps_1_3_unpublished p) E
  | E : processTenexTask_steps_4_10 ?a ?b _ _ = _ |- _ =>
      called (steps_4_10_listing_free a b) E
  | E : findProjectName ?a ?b _ _ = _ |- _ =>
      called (findProjectName_adds a b) E
  | E : readTenexConfig ?p _ _ = _ |- _ =>
      called (readTenexConfig_adds p) E
  | E : readFileIfExists ?p _ _ = _ |- _ =>
      called (readFileIfExists_adds p) E
  | E : createDetailedTask ?a ?b ?c _ _ = _ |- _ =>
      called (createDetailedTask_adds a b c) E
  end.

(** Looks for the event of [H : In e trace] in a trace made of known
    events and of the events added by called functions. *)
Ltac hunt H :=
  repeat first
    [ apply in_app_or in H; destruct H as [H|H]
    | match type of H with
      | In ?x ?evs =>
          match goal with
          | F : Forall _ evs |- _ =>
              exfalso; rewrite Forall_forall in F; apply F in H;
              first [exact H | discriminate H]
          end
      | In _ (_ :: _) => destruct H as [H|H]; [try discriminate H|]
      | In _ [] => destruct H
      end ].

Ltac split_trace :=
  first [ eexists [], _, _, _, [_; _]; split; [reflexivity|]
        | eexists [_], _, _, _, [_; _]; split; [reflexivity|]
        | eexists [_; _], _, _, _, [_; _]; split; [reflexivity|]
        | eexists [_; _; _], _, _, _, [_; _]; split; [reflexivity|] ].

(** A generation call that returns has run its command exactly once,
    and returns the trimmed standard output of that command. *)
Lemma queryOllama_normal model prompt w t r t' :
  queryOllama model prompt w t = (Normal r, t') ->
  exists post cmd stdout stderr pre,
    t' = post ++ SpawnPipe cmd (Returned (stdout, stderr)) :: pre ++ t /\
    r = trim stdout /\ Forall no_spawn post /\ Forall no_spawn pre.
Proof.
  intros H. unfold queryOllama in H. exec H.
  all: try discriminate.
  all: inversion H; subst; clear H.
  all: split_trace; split; [reflexivity|]; split; repeat constructor.
Qed.

Lemma createDetailedTask_normal tc spec arch w t T t' :
  createDetailedTask tc spec arch w t = (Normal T, t') ->
  exists post cmd stdout stderr pre,
    t' = post ++ SpawnPipe cmd (Returned (stdout, stderr)) :: pre ++ t /\
    T = trim (trim stdout) /\ Forall no_spawn post /\ Forall no_spawn pre.
Proof.
  intros H. unfold createDetailedTask in H. exec H; try discriminate.
  inversion H; subst; clear H.
  apply queryOllama_normal in E.
  destruct E as (post & cmd & stdout & stderr & pre & -> & -> & Fpost & Fpre).
  exists post, cmd, stdout, stderr, (pre ++ [ConsoleLog "Creating detailed task..."]).
  rewrite <- app_assoc. repeat split; auto.
  apply Forall_app. split; auto. repeat constructor.
Qed.

(** A trace kept newest first, cut at two of its events, read in the
    order of time. *)
Lemma rev_split2 (A B C : list Event) e1 e2 raw :
  raw = A ++ e2 :: B ++ e1 :: C ->
  rev raw = rev C ++ e1 :: rev B ++ e2 :: rev A.
Proof.
  intros ->. rewrite !rev_app_distr. simpl. rewrite !rev_app_distr. simpl.
  repeat rewrite <- app_assoc. reflexivity.
Qed.

(** What [findProjectName] does once the generation call has returned
    [response]. *)
Lemma findProjectName_outcome w t tc dirs response t' :
  queryOllama (FIND_PROJECT_MODEL w) (findProjectName_prompt tc dirs) w
    (ConsoleLog "Finding project name from transcript..." :: t)
  = (Normal response, t') ->
  findProjectName tc dirs w t =
  let notFound :=
    (Throw (mkError "Could not identify project directory"),
     ConsoleError ("Could not match response " ++ DQ ++ response ++ DQ
                   ++ " to any project directory")%string :: t') in
  match find (findProjectName_matches response) dirs with
  | Some d =>
      if truthy d
      then (Normal d, ConsoleLog ("Identified project directory: " ++ d) :: t')
      else notFound
  | None => notFound
  end.
Proof.
  intros H. unfold findProjectName, bind, console_log, emit, asks.
  rewrite H. cbv zeta.
  destruct (find _ dirs) as [d|]; [destruct (truthy d)|]; reflexivity.
Qed.

Lemma find_first {A} (p : A -> bool) pre d post :
  Forall (fun x => p x = false) pre -> p d = true ->
  find p (pre ++ d :: post) = Some d.
Proof.
  induction 1 as [|x pre Hx _ IH]; simpl; intros Hd.
  - now rewrite Hd.
  - rewrite Hx. now apply IH.
Qed.

Lemma find_none {A} (p : A -> bool) l :
  Forall (fun x => p x = false) l -> find p l = None.
Proof. induction 1 as [|x l Hx _ IH]; simpl; [reflexivity|now rewrite Hx]. Qed.

(** An entry equal to the response satisfies the predicate of [find]. *)
Lemma matches_exact (d : string) : findProjectName_matches d d = true.
Proof. unfold findProjectName_matches. now rewrite String.eqb_refl. Qed.

(** Every entry satisfies it when the response is empty. *)
Lemma matches_empty_response (d : string) : findProjectName_matches "" d = true.
Proof.
  unfold findProjectName_matches.
  rewrite JsStringFacts.startsWith_empty. now rewrite !orb_true_r.
Qed.

Lemma truthy_nonempty (s : string) : s <> "" -> truthy s = true.
Proof. destruct s; [contradiction|reflexivity]. Qed.

Lemma inventory_no_directory entries :
  Forall (fun d => isDirectory d = false) entries ->
  inventory (Returned entries) = [].
Proof.
  induction 1 as [|d l Hd _ IH]; simpl; [reflexivity|]. now rewrite Hd.
Qed.

(** [getProjectDirectories] never throws: it returns the inventory that
    the answer of [fs.readdir] stands for. *)
Lemma getProjectDirectories_total w t :
  fst (getProjectDirectories w t) =
  Normal (inventory (fs_readdir w (S (length t)) (TENEX_PROJECTS_DIR w))).
Proof.
  unfold getProjectDirectories, bind, asks, console_log, emit, tryCatch,
    readdir, request, complete, ret, console_error.
  cbn [length]. destruct (fs_readdir w (S (length t)) (TENEX_PROJECTS_DIR w));
    reflexivity.
Qed.

End Execution.

(** ** Project resolution: the matching rule of [findProjectName] *)

Module Resolver.
Import Host Events JsString TenexTask Statements TraceFacts Execution.
Local Open Scope list_scope.

(** What [findProjectName] returns.  [projectDirs.find] tests one
    disjunction of the four comparisons on each entry in inventory order,
    so the entry chosen is the first one that satisfies any of them: an
    entry [d] that equals the response, or satisfies any of the four
    comparisons, is returned when no entry before it satisfies one ([d]
    being a directory name, it is not empty). *)
Theorem first_matching_entry_is_chosen w t tc dirs response t' pre d post :
  queryOllama (FIND_PROJECT_MODEL w) (findProjectName_prompt tc dirs) w
    (ConsoleLog "Finding project name from transcript..." :: t)
  = (Normal response, t') ->
  dirs = pre ++ d :: post ->
  Forall (fun x => findProjectName_matches response x = false) pre ->
  d = response \/ findProjectName_matches response d = true ->
  d <> "" ->
  findProjectName tc dirs w t
  = (Normal d, ConsoleLog ("Identified project directory: " ++ d) :: t').
Proof.
  intros Hq Hdirs Hpre Hd Hne.
  assert (Hm : findProjectName_matches response d = true).
  { destruct Hd as [->|Hd]; [apply matches_exact | exact Hd]. }
  rewrite (findProjectName_outcome _ _ _ _ _ _ Hq). cbv zeta.
  rewrite Hdirs, (find_first _ _ _ _ Hpre Hm).
  now rewrite (truthy_nonempty _ Hne).
Qed.

Lemma first_matching_entry_is_chosen_witness :
  exists t',
    queryOllama "llama3.2"
      (findProjectName_prompt Demo.transcript
         ["Backend-ab12"; "Shipyard-rux5kf"; "Shipyard"])
      (Demo.answering "Shipyard")
      [ConsoleLog "Finding project name from transcript..."]
    = (Normal "Shipyard", t')
    /\ findProjectName Demo.transcript
         ["Backend-ab12"; "Shipyard-rux5kf"; "Shipyard"]
         (Demo.answering "Shipyard") []
       = (Normal "Shipyard-rux5kf",
          ConsoleLog "Identified project directory: Shipyard-rux5kf" :: t').
Proof.
  eexists. split; [reflexivity|].
  apply (first_matching_entry_is_chosen (Demo.answering "Shipyard") []
           Demo.transcript _ "Shipyard" _ ["Backend-ab12"] "Shipyard-rux5kf"
           ["Shipyard"]);
    [reflexivity | reflexivity | repeat constructor | right; reflexivity
    | discriminate].
Defined.

(** The same on the example of the prompt: the response equals the
    entry [Shipyard] exactly, and the entry chosen is [Shipyard-rux5kf],
    which stands before it and starts with the response. *)
Lemma exact_match_loses_to_earlier_prefix_match :
  let dirs := ["Shipyard-rux5kf"; "Shipyard"] in
  let result := findProjectName Demo.transcript dirs (Demo.answering "Shipyard") [] in
  generation_outputs (snd result) = ["Shipyard"]
  /\ In "Shipyard" dirs
  /\ fst result = Normal "Shipyard-rux5kf"
  /\ "Shipyard-rux5kf" <> "Shipyard".
Proof.
  cbv zeta. split; [reflexivity|]. split; [right; left; reflexivity|].
  split; [reflexivity | discriminate].
Qed.

(** C1.  The claim fails on the code at an exact answer.  The workspace
    lists [tenex-web-ab12] before [tenex-cli-cd34], and the generation
    command answers [tenex-cli-cd34]: that is an entry of the inventory
    and equals itself (the first comparison), yet the project returned is
    [tenex-web-ab12], another entry, whose leading segment [tenex] the
    answer starts with (the fourth comparison). *)
Lemma exact_answer_resolves_to_another_project :
  let w :=
    Demo.world [mkDirent "tenex-web-ab12" true; mkDirent "tenex-cli-cd34" true]
      "tenex-cli-cd34" Demo.task (Returned Demo.credentials) 0 in
  let result := processTenexTask_steps_1_3 "t.txt" w [] in
  fst (getProjectDirectories w []) = Normal ["tenex-web-ab12"; "tenex-cli-cd34"]
  /\ generation_outputs (snd result) = ["tenex-cli-cd34"]
  /\ ("tenex-cli-cd34" =? "tenex-cli-cd34")%string = true
  /\ fst result = Normal (Demo.transcript, "tenex-web-ab12")
  /\ "tenex-web-ab12" <> "tenex-cli-cd34".
Proof.
  cbv zeta. split; [reflexivity|]. split; [reflexivity|].
  split; [reflexivity|]. split; [reflexivity | discriminate].
Qed.

(** C2 (as amended).  Against the inventory [Shipyard-rux5kf] the response
    [Shipyard] is resolved, by the comparison of the leading segment; the
    response [shipyard] satisfies none of the four comparisons (the only
    one that ignores case compares whole strings) and resolution fails. *)
Theorem shipyard_needs_matching_case w t tc response t' :
  queryOllama (FIND_PROJECT_MODEL w)
    (findProjectName_prompt tc ["Shipyard-rux5kf"]) w
    (ConsoleLog "Finding project name from transcript..." :: t)
  = (Normal response, t') ->
  response = "shipyard" \/ response = "Shipyard" ->
  findProjectName tc ["Shipyard-rux5kf"] w t =
  if String.eqb response "Shipyard"
  then (Normal "Shipyard-rux5kf",
        ConsoleLog "Identified project directory: Shipyard-rux5kf" :: t')
  else (Throw (mkError "Could not identify project directory"),
        ConsoleError ("Could not match response " ++ DQ ++ "shipyard" ++ DQ
                      ++ " to any project directory")%string :: t').
Proof.
  intros Hq Hr. rewrite (findProjectName_outcome _ _ _ _ _ _ Hq).
  destruct Hr as [-> | ->]; reflexivity.
Qed.

Lemma shipyard_needs_matching_case_witness :
  exists t',
    queryOllama "llama3.2"
      (findProjectName_prompt Demo.transcript ["Shipyard-rux5kf"])
      (Demo.answering "shipyard")
      [ConsoleLog "Finding project name from transcript..."]
    = (Normal "shipyard", t')
    /\ fst (findProjectName Demo.transcript ["Shipyard-rux5kf"]
              (Demo.answering "shipyard") [])
       = Throw (mkError "Could not identify project directory").
Proof.
  eexists. split; [reflexivity|].
  rewrite (shipyard_needs_matching_case (Demo.answering "shipyard") []
             Demo.transcript "shipyard" _ eq_refl (or_introl eq_refl)).
  reflexivity.
Defined.

(** C2, as stated, fails: with the response [shipyard] and the inventory
    [Shipyard-rux5kf] resolution throws. *)
Lemma lowercase_shipyard_is_not_resolved :
  let result :=
    findProjectName Demo.transcript ["Shipyard-rux5kf"] (Demo.answering "shipyard") [] in
  generation_outputs (snd result) = ["shipyard"]
  /\ fst result = Throw (mkError "Could not identify project directory")
  /\ fst result <> Normal "Shipyard-rux5kf".
Proof.
  cbv zeta. split; [reflexivity|]. split; [reflexivity | discriminate].
Qed.

(** C3 (as amended).  When no entry satisfies any of the four comparisons,
    [findProjectName] writes the response to the error log and throws an
    error whose message is a fixed text; nothing else happens after the
    generation call has returned, so the call is not made again. *)
Theorem no_match_throws_fixed_error w t tc dirs response t' :
  queryOllama (FIND_PROJECT_MODEL w) (findProjectName_prompt tc dirs) w
    (ConsoleLog "Finding project name from transcript..." :: t)
  = (Normal response, t') ->
  Forall (fun d => findProjectName_matches response d = false) dirs ->
  findProjectName tc dirs w t
  = (Throw (mkError "Could not identify project directory"),
     ConsoleError ("Could not match response " ++ DQ ++ response ++ DQ
                   ++ " to any project directory")%string :: t').
Proof.
  intros Hq Hno. rewrite (findProjectName_outcome _ _ _ _ _ _ Hq). cbv zeta.
  now rewrite (find_none _ _ Hno).
Qed.

Lemma no_match_throws_fixed_error_witness :
  exists t',
    queryOllama "llama3.2"
      (findProjectName_prompt Demo.transcript ["Shipyard-rux5kf"; "Backend-ab12"])
      (Demo.answering "unrelated-name")
      [ConsoleLog "Finding project name from transcript..."]
    = (Normal "unrelated-name", t')
    /\ findProjectName Demo.transcript ["Shipyard-rux5kf"; "Backend-ab12"]
         (Demo.answering "unrelated-name") []
       = (Throw (mkError "Could not identify project directory"),
          ConsoleError ("Could not match response " ++ DQ ++ "unrelated-name" ++ DQ
                        ++ " to any project directory")%string :: t').
Proof.
  eexists. split; [reflexivity|].
  apply (no_match_throws_fixed_error (Demo.answering "unrelated-name") []
           Demo.transcript _ "unrelated-name" _);
    [reflexivity | repeat constructor].
Defined.

(** C3, as stated, fails: the error thrown carries neither the response
    nor the size of the inventory.  Two resolutions that differ in both
    throw the same error, whose only content is a fixed message. *)
Lemma error_is_the_same_for_every_response :
  let one :=
    findProjectName Demo.transcript ["Shipyard-rux5kf"; "Backend-ab12"]
      (Demo.answering "unrelated-name") [] in
  let other :=
    findProjectName Demo.transcript ["Shipyard-rux5kf"]
      (Demo.answering "another-name") [] in
  generation_outputs (snd one) = ["unrelated-name"]
  /\ generation_outputs (snd other) = ["another-name"]
  /\ fst one = Throw (mkError "Could not identify project directory")
  /\ fst other = fst one.
Proof. cbv zeta. repeat split; reflexivity. Qed.

(** C9.  When the generation call returns the empty string, every entry
    starts with it, so [find] stops at the first entry of a non-empty
    inventory and resolution returns it (a directory name is not the
    empty string). *)
Theorem empty_response_selects_first_entry w t tc d rest t' :
  queryOllama (FIND_PROJECT_MODEL w) (findProjectName_prompt tc (d :: rest)) w
    (ConsoleLog "Finding project name from transcript..." :: t)
  = (Normal "", t') ->
  d <> "" ->
  findProjectName tc (d :: rest) w t
  = (Normal d, ConsoleLog ("Identified project directory: " ++ d) :: t').
Proof.
  intros Hq Hd. rewrite (findProjectName_outcome _ _ _ _ _ _ Hq). cbv zeta.
  simpl find. rewrite matches_empty_response.
  now rewrite (truthy_nonempty _ Hd).
Qed.

Lemma empty_response_selects_first_entry_witness :
  exists t',
    queryOllama "llama3.2"
      (findProjectName_prompt Demo.transcript ["Backend-ab12"; "Shipyard-rux5kf"])
      (Demo.answering "") [ConsoleLog "Finding project name from transcript..."]
    = (Normal "", t')
    /\ findProjectName Demo.transcript ["Backend-ab12"; "Shipyard-rux5kf"]
         (Demo.answering "") []
       = (Normal "Backend-ab12",
          ConsoleLog "Identified project directory: Backend-ab12" :: t').
Proof.
  eexists. split; [reflexivity|].
  apply (empty_response_selects_first_entry (Demo.answering "") []
           Demo.transcript "Backend-ab12" ["Shipyard-rux5kf"] _);
    [reflexivity | discriminate].
Defined.

End Resolver.

(** ** Task synthesis: the prompt of [createDetailedTask] and the title *)

Module Synthesizer.
Import Host Events JsString TenexTask Statements TraceFacts Execution.
Local Open Scope list_scope.

Local Open Scope string_scope.

Lemma startsWith_app_inv (s b n : string) :
  startsWith (s ++ b) n = true ->
  startsWith s n = true \/ (startsWith n s = true /\ startsWith s n = false).
Proof.
  revert n. induction s as [|c s IH]; intros n H.
  - destruct n; [left; reflexivity | right; split; reflexivity].
  - destruct n as [|d n]; [left; reflexivity|].
    cbn [append startsWith] in *.
    destruct (Ascii.eqb d c) eqn:E; [|discriminate H].
    apply Ascii.eqb_eq in E. subst d. rewrite Ascii.eqb_refl.
    cbn [andb] in *. apply IH, H.
Qed.

Lemma occurs_app_clean (n a b : string) :
  occurs n a = false -> opens n a = false -> occurs n (a ++ b) = occurs n b.
Proof.
  induction a as [|c a IH]; intros Ha Hb; [reflexivity|].
  cbn [append occurs]. cbn [occurs] in Ha. cbn [opens] in Hb.
  apply orb_false_elim in Ha as [Ha1 Ha2].
  apply orb_false_elim in Hb as [Hb1 Hb2].
  rewrite (IH Ha2 Hb2).
  destruct (startsWith (String c (a ++ b)) n) eqn:E; [|reflexivity].
  exfalso. change (String c (a ++ b)) with (String c a ++ b) in E.
  apply startsWith_app_inv in E. destruct E as [E|[E1 E2]].
  - congruence.
  - rewrite E1, E2 in Hb1. discriminate.
Qed.

Lemma occurs_after (n a b : string) : occurs n b = true -> occurs n (a ++ b) = true.
Proof.
  intros H. induction a as [|c a IH]; [exact H|].
  cbn [append occurs]. rewrite IH. apply orb_true_r.
Qed.

Lemma occurs_here (n b : string) : occurs n (n ++ b) = true.
Proof.
  assert (H : startsWith (n ++ b) n = true).
  { induction n as [|c n IH]; simpl; [apply JsStringFacts.startsWith_empty|].
    now rewrite Ascii.eqb_refl, IH. }
  destruct (n ++ b); cbn [occurs]; rewrite H; reflexivity.
Qed.

(** A text without [c] holds no occurrence of a needle that starts with
    [c], and no beginning of one. *)
Lemma free_of_clean (c : ascii) (n x : string) :
  free_of c x -> occurs (String c n) x = false /\ opens (String c n) x = false.
Proof.
  induction x as [|a x IH]; intros H; [split; reflexivity|].
  destruct H as [Hne Hx]. destruct (IH Hx) as [I1 I2].
  cbn [occurs opens]. rewrite I1, I2.
  assert (E : Ascii.eqb a c = false) by now apply Ascii.eqb_neq.
  cbn [startsWith]. rewrite Ascii.eqb_sym in E. rewrite E.
  rewrite Ascii.eqb_sym in E. rewrite ?E. split; reflexivity.
Qed.

Lemma append_assoc_r (a b c : string) : ((a ++ b) ++ c = a ++ b ++ c)%string.
Proof. induction a; simpl; congruence. Qed.

Ltac clean_piece :=
  rewrite occurs_app_clean;
  [ | first [ vm_compute; reflexivity | apply free_of_clean; assumption ]
    | first [ vm_compute; reflexivity | apply free_of_clean; assumption ] ].

Lemma context_labels tc spec arch :
  free_of "<" tc -> free_of "<" spec -> free_of "<" arch ->
  (occurs "<SPEC>" (createDetailedTask_prompt tc spec arch) = truthy spec
   /\ occurs "</SPEC>" (createDetailedTask_prompt tc spec arch) = truthy spec)
  /\ (occurs "<ARCHITECTURE>" (createDetailedTask_prompt tc spec arch) = truthy arch
      /\ occurs "</ARCHITECTURE>" (createDetailedTask_prompt tc spec arch)
         = truthy arch).
Proof.
  intros Ht Hs Ha.
  change (createDetailedTask_prompt tc spec arch)
    with (task_prompt_opening ++ createDetailedTask_contextSection spec arch
            ++ task_prompt_before_transcript ++ tc ++ task_prompt_closing)%string.
  replace (createDetailedTask_contextSection spec arch)
    with (match spec, arch with
          | "", "" => ""
          | String _ _, "" => context_header ++ spec_block spec
          | "", String _ _ => context_header ++ architecture_block arch
          | String _ _, String _ _ =>
              context_header ++ spec_block spec ++ LF ++ LF
                ++ architecture_block arch
          end)%string
    by (destruct spec, arch; reflexivity).
  destruct spec as [|a spec], arch as [|b arch];
    unfold spec_block, architecture_block, truthy;
    repeat rewrite append_assoc_r.
  all: repeat split; repeat clean_piece;
    first [ vm_compute; reflexivity
          | apply occurs_here
          | repeat (apply occurs_after || apply occurs_here) ].
Qed.

(** C6.  [readFileIfExists] never throws: a failed read gives the empty
    string.  The context section of the task prompt is empty when both
    documents are empty, and otherwise is the header followed by the
    block of each non-empty document, the specification before the
    architecture.  The prompt is that section and the transcript
    inside a fixed text; and when neither the transcript nor a document
    holds the character [<], the opening and closing labels of a block
    occur in the prompt exactly when its document is not empty. *)
Theorem context_blocks_only_for_nonempty_documents :
  (forall w t path,
      readFileIfExists path w t =
      match fs_readFile w (length t) path with
      | Returned content =>
          (Normal content, FsReadFile path (Returned content) :: t)
      | Failed e =>
          (Normal "",
           ConsoleLog ("File not found: " ++ path)
             :: FsReadFile path (Failed e) :: t)
      end)
  /\ (forall spec arch,
         createDetailedTask_contextSection spec arch =
         match spec, arch with
         | "", "" => ""
         | String _ _, "" => context_header ++ spec_block spec
         | "", String _ _ => context_header ++ architecture_block arch
         | String _ _, String _ _ =>
             context_header ++ spec_block spec ++ LF ++ LF
               ++ architecture_block arch
         end)%string
  /\ (forall tc spec arch,
         createDetailedTask_prompt tc spec arch =
         task_prompt_opening ++ createDetailedTask_contextSection spec arch
           ++ task_prompt_before_transcript ++ tc ++ task_prompt_closing)%string
  /\ (forall tc spec arch,
         free_of "<" tc -> free_of "<" spec -> free_of "<" arch ->
         let prompt := createDetailedTask_prompt tc spec arch in
         (occurs "<SPEC>" prompt = truthy spec
          /\ occurs "</SPEC>" prompt = truthy spec)
         /\ (occurs "<ARCHITECTURE>" prompt = truthy arch
             /\ occurs "</ARCHITECTURE>" prompt = truthy arch)).
Proof.
  split; [|split; [|split]].
  - intros w t path.
    unfold readFileIfExists, tryCatch, readFile, request, complete, bind,
      console_log, emit, ret.
    destruct (fs_readFile w (length t) path); reflexivity.
  - intros [|a spec] [|b arch]; reflexivity.
  - reflexivity.
  - intros tc spec arch. cbv zeta. apply context_labels.
Qed.

Local Open Scope list_scope.

Ltac without_angle := cbn [free_of]; repeat (split; [discriminate|]); exact I.

Lemma context_blocks_only_for_nonempty_documents_witness :
  let prompt := createDetailedTask_prompt Demo.transcript "" "Layers" in
  (occurs "<SPEC>" prompt = false /\ occurs "</SPEC>" prompt = false)
  /\ (occurs "<ARCHITECTURE>" prompt = true
      /\ occurs "</ARCHITECTURE>" prompt = true).
Proof.
  destruct context_blocks_only_for_nonempty_documents as (_ & _ & _ & H).
  apply (H Demo.transcript "" "Layers"); without_angle.
Defined.

(** C10 (as amended).  The text [createDetailedTask] returns is the
    standard output of its generation call, trimmed.  When that output
    holds a character that is not white space, line zero of the text
    starts with such a character, so the title is neither empty nor
    indented; when the output is white space only, be it non-empty, the
    text and the title are empty. *)
Theorem title_of_trimmed_text tc spec arch w t T t' :
  createDetailedTask tc spec arch w t = (Normal T, t') ->
  titled_by_trimmed_output t T t'.
Proof.
  intros H. apply createDetailedTask_normal in H.
  destruct H as (post & cmd & stdout & stderr & pre & -> & -> & Fpost & _).
  exists post, cmd, stdout, stderr, pre.
  rewrite JsStringFacts.trim_idem.
  repeat split; auto.
  - now apply JsStringFacts.trim_empty.
  - apply JsStringFacts.trim_empty in H. now rewrite H.
  - intros NB. destruct (JsStringFacts.trim_head stdout) as [E|(c & r & E & W)].
    + apply JsStringFacts.trim_empty in E. contradiction.
    + rewrite E. simpl split.
      assert (Hc : Ascii.eqb c newline = false).
      { apply Ascii.eqb_neq. intros ->. discriminate W. }
      rewrite Hc.
      pose proof (JsStringFacts.split_nonempty newline r) as NE.
      destruct (split newline r) as [|x xs]; [contradiction|].
      now exists c, x.
Qed.

Lemma title_of_trimmed_text_witness :
  exists t',
    createDetailedTask Demo.transcript "" ""
      (Demo.answering (LF ++ Demo.task ++ LF)) []
    = (Normal Demo.task, t')
    /\ titled_by_trimmed_output [] Demo.task t'.
Proof.
  eexists. split; [reflexivity|].
  apply (title_of_trimmed_text Demo.transcript "" ""
           (Demo.answering (LF ++ Demo.task ++ LF)) []).
  reflexivity.
Defined.

(** C10, as stated, fails: the output of the generation call is not
    empty (a space and a line feed), and the title is the empty string. *)
Lemma blank_output_gives_empty_title :
  let tr := snd (run Demo.generating_blank "t.txt") in
  generation_outputs tr = ["Shipyard"; Demo.blank_output]
  /\ Demo.blank_output <> ""
  /\ map (fun argv => nth_error argv 9) (publication_calls tr)
     = [Some (JsValue.Str "title=")].
Proof.
  cbv zeta. split; [vm_compute; reflexivity|].
  split; [discriminate | vm_compute; reflexivity].
Qed.

End Synthesizer.

(** ** Publication: what is handed to [nak], and what follows its failure *)

Module Publisher.
Import Host Events JsString TenexTask Statements TraceFacts Execution.
Local Open Scope list_scope.

(** C4.  In every run, a publication call is made with the title tag set
    to line zero of the generated text (its part before the first line
    feed, or all of it when it has none) and with the whole generated
    text, title line included, as its content. *)
Theorem title_is_line_zero_and_body_is_whole_text w path c tr argv r :
  run w path = (c, tr) ->
  In (SpawnInherit argv r) tr ->
  publishes_generated_text w tr argv r.
Proof.
  unfold run, publishes_generated_text. intros H Hin.
  destruct (processTenexTask path w []) as [c0 t0] eqn:E.
  inversion H; subst; clear H. apply in_rev in Hin.
  unfold processTenexTask, processTenexTask_steps_4_10, publishNostrEvent in E.
  exec E.
  all: inversion E; subst; clear E.
  all: try match goal with
       | E : createDetailedTask _ _ _ _ _ = (Normal _, _) |- _ =>
           apply createDetailedTask_normal in E;
           destruct E as (post & cmd & stdout & stderr & pre & -> & -> & Fpost & Fpre)
       end.
  all: trace_facts.
  all: hunt Hin.
  all: inversion Hin; subst; clear Hin.
  all: eexists (rev _), cmd, stdout, stderr, (rev (_ :: _ :: _ :: post)), (rev _), _, _.
  all: split;
    [ first [ eapply (rev_split2 [_; _]); reflexivity
            | eapply (rev_split2 [_; _; _; _]); reflexivity
            | eapply (rev_split2 [_; _; _; _; _]); reflexivity ] |].
  all: split; [apply Forall_rev; repeat constructor; exact Fpost|].
  all: cbv zeta; split; [reflexivity | apply JsStringFacts.first_split].
Qed.

Lemma title_is_line_zero_and_body_is_whole_text_witness :
  publishes_generated_text (Demo.publishing 0)
    (snd (run (Demo.publishing 0) "t.txt")) Demo.published_argv (Returned 0%Z).
Proof.
  apply (title_is_line_zero_and_body_is_whole_text (Demo.publishing 0) "t.txt"
           (fst (run (Demo.publishing 0) "t.txt"))).
  - apply surjective_pairing.
  - vm_compute. repeat first [left; reflexivity | right].
Defined.

(** C7.  In every run, a publication call that exits with a status other
    than zero is followed by the error logged by [publishNostrEvent], by
    the failure logged by its caller (which got [false] back, not an
    exception), and by the deletion of the temporary task file; the run
    then completes without calling [process.exit]. *)
Theorem failed_publication_is_reported_then_cleaned_up w path c tr argv code :
  run w path = (c, tr) ->
  In (SpawnInherit argv (Returned code)) tr ->
  code <> 0%Z ->
  c = Normal tt /\ reports_failure_then_cleans_up w tr argv code.
Proof.
  unfold run, reports_failure_then_cleans_up. intros H Hin Hcode.
  destruct (processTenexTask path w []) as [c0 t0] eqn:E.
  inversion H; subst; clear H. apply in_rev in Hin.
  unfold processTenexTask, processTenexTask_steps_4_10, publishNostrEvent in E.
  exec E.
  all: inversion E; subst; clear E.
  all: trace_facts.
  all: hunt Hin.
  all: inversion Hin; subst; clear Hin.
  all: match goal with
       | E : negb (_ =? 0)%Z = false |- _ =>
           apply negb_false_iff, Z.eqb_eq in E; contradiction
       | _ => idtac
       end.
  all: split; [reflexivity|]; cbv zeta.
  all: match goal with
       | |- context [rev (_ :: FsUnlink _ (Returned ?a) :: _ :: _ :: _ :: ?rest)] =>
           exists (rev rest), (Returned a)
       | |- context [rev (_ :: _ :: FsUnlink _ (Failed ?e) :: _ :: _ :: _ :: ?rest)] =>
           exists (rev rest), (Failed e)
       end.
  all: cbn [rev]; repeat rewrite <- app_assoc; reflexivity.
Qed.

Lemma failed_publication_is_reported_then_cleaned_up_witness :
  fst (run (Demo.publishing 1) "t.txt") = Normal tt
  /\ reports_failure_then_cleans_up (Demo.publishing 1)
       (snd (run (Demo.publishing 1) "t.txt")) Demo.published_argv 1.
Proof.
  apply (failed_publication_is_reported_then_cleaned_up (Demo.publishing 1) "t.txt").
  - apply surjective_pairing.
  - vm_compute. repeat first [left; reflexivity | right].
  - discriminate.
Defined.

(** What [publishNostrEvent] itself returns on a non-zero exit status:
    the value [false], after logging the status. *)
Lemma publishNostrEvent_reports_failure w t nsec eventId title content code :
  JsValue.stringifies eventId = true ->
  Bun_spawn_inherit w (S (length t))
    (publishNostrEvent_argv w nsec eventId title content) = Returned code ->
  code <> 0%Z ->
  publishNostrEvent nsec eventId title content w t =
  (Normal false,
   [ConsoleError ("Error publishing Nostr event, exit code: " ++ ofZ code);
    SpawnInherit (publishNostrEvent_argv w nsec eventId title content)
      (Returned code);
    ConsoleLog "Publishing Nostr event..."] ++ t).
Proof.
  intros Hconv Hspawn Hcode.
  unfold publishNostrEvent, bind, console_log, emit, lift, asks, spawn_inherit,
    request, complete, console_error, ret.
  rewrite Hconv. cbn [length]. rewrite Hspawn.
  apply Z.eqb_neq in Hcode. rewrite Hcode. reflexivity.
Qed.

End Publisher.

(** ** Orchestration: the conditions that abort [processTenexTask] *)

Module Orchestrator.
Import Host Events JsString TenexTask Statements TraceFacts Execution.
Local Open Scope list_scope.

(** C5.  When the descriptor of the project found lacks [nsec] or
    [eventId] (the property is absent, the empty string, or any other
    falsy value), the run logs the error and exits with status 1; after
    the first three steps it has done nothing but read the descriptor, so
    neither the task-generation call nor the publication call is made. *)
Theorem missing_field_aborts_before_generation
    w path tc dir t1 cfg t2 nsec eventId :
  processTenexTask_steps_1_3 path w
    [ConsoleLog ("Processing Tenex task from: " ++ path)]
  = (Normal (tc, dir), t1) ->
  readTenexConfig dir w t1 = (Normal cfg, t2) ->
  destructure w cfg = Returned (nsec, eventId) ->
  JsValue.ToBoolean nsec = false \/ JsValue.ToBoolean eventId = false ->
  aborts_on_descriptor w path dir cfg t1.
Proof.
  intros H13 Hcfg Hd Hmiss.
  assert (Hcheck : negb (JsValue.ToBoolean nsec)
                   || negb (JsValue.ToBoolean eventId) = true).
  { destruct Hmiss as [-> | ->]; [reflexivity | apply orb_true_r]. }
  unfold aborts_on_descriptor, run, processTenexTask, processTenexTask_steps_4_10.
  unfold bind at 1. unfold console_log at 1. unfold emit at 1.
  unfold tryCatch at 1. unfold bind at 1. rewrite H13.
  unfold bind at 1. rewrite Hcfg.
  unfold bind at 1. unfold lift at 1. rewrite Hd. unfold complete.
  unfold bind at 1. rewrite Hcheck. unfold throw at 1.
  unfold bind, console_error, emit, process_exit. cbv beta iota.
  unfold readTenexConfig in Hcfg. exec Hcfg; try discriminate.
  inversion Hcfg; subst; clear Hcfg.
  eexists. cbv zeta. split; [eassumption|].
  cbn [rev]. repeat rewrite <- app_assoc. reflexivity.
Qed.

Lemma missing_field_aborts_before_generation_witness :
  exists t1,
    processTenexTask_steps_1_3 "t.txt" Demo.without_event_id
      [ConsoleLog "Processing Tenex task from: t.txt"]
    = (Normal (Demo.transcript, "Shipyard-rux5kf"), t1)
    /\ aborts_on_descriptor Demo.without_event_id "t.txt" "Shipyard-rux5kf"
         Demo.incomplete_descriptor t1.
Proof.
  eexists. split; [reflexivity|].
  eapply (missing_field_aborts_before_generation Demo.without_event_id "t.txt"
            Demo.transcript "Shipyard-rux5kf");
    [reflexivity | reflexivity | reflexivity | right; reflexivity].
Defined.

(** C8.  [getProjectDirectories] never throws: it returns the inventory
    that the answer of [fs.readdir] stands for, which is empty when the
    call failed and when no entry is a directory.  In every run whose
    inventory is empty, [processTenexTask] exits with status 1 on the
    error [No project directories found] and no child process (generation
    or publication) is ever started. *)
Theorem empty_inventory_aborts_before_generation :
  (forall w t,
      fst (getProjectDirectories w t) =
      Normal (inventory (fs_readdir w (S (length t)) (TENEX_PROJECTS_DIR w))))
  /\ (forall e, inventory (Failed e) = [])
  /\ (forall entries,
         Forall (fun d => isDirectory d = false) entries ->
         inventory (Returned entries) = [])
  /\ (forall w path c tr root answer,
         run w path = (c, tr) ->
         In (FsReaddir root answer) tr ->
         inventory answer = [] ->
         c = Exit 1
         /\ Forall no_spawn tr
         /\ In (ConsoleError
                  ("Error during processing: No project directories found in "
                   ++ TENEX_PROJECTS_DIR w)) tr).
Proof.
  split; [exact getProjectDirectories_total|].
  split; [reflexivity|].
  split; [exact inventory_no_directory|].
  unfold run. intros w path c tr root answer H Hin Hempty.
  destruct (processTenexTask path w []) as [c0 t0] eqn:E.
  inversion H; subst; clear H. apply in_rev in Hin.
  unfold processTenexTask, processTenexTask_steps_1_3, getProjectDirectories in E.
  exec E.
  all: inversion E; subst; clear E.
  all: trace_facts.
  all: hunt Hin.
  all: try match goal with
       | E : (Datatypes.length [] =? 0)%nat = false |- _ => discriminate E
       end.
  all: try (inversion Hin; subst; clear Hin; simpl in Hempty;
            match goal with
            | E : (Datatypes.length _ =? 0)%nat = false |- _ =>
                rewrite Hempty in E; discriminate E
            end).
  all: split; [reflexivity|].
  all: split; [apply Forall_rev; repeat constructor|].
  all: apply -> in_rev; simpl; tauto.
Qed.

Lemma empty_inventory_aborts_before_generation_witness :
  fst (run Demo.without_projects "t.txt") = Exit 1
  /\ Forall no_spawn (snd (run Demo.without_projects "t.txt"))
  /\ In (ConsoleError
           "Error during processing: No project directories found in <path-to-tenex-projects>")
        (snd (run Demo.without_projects "t.txt")).
Proof.
  apply (proj2 (proj2 (proj2 empty_inventory_aborts_before_generation))
           Demo.without_projects "t.txt" _ _ "<path-to-tenex-projects>"
           (Returned [mkDirent "notes.txt" false])).
  - apply surjective_pairing.
  - vm_compute. repeat first [left; reflexivity | right].
  - reflexivity.
Defined.

End Orchestrator.

(** ** Code that never calls [process.exit] *)

Module Completions.
Import Host Events JsString TenexTask Statements CoverageStatements TraceFacts.
Local Open Scope list_scope.

Lemma returns_ret {A} (a : A) : returns (ret a).
Proof. intros w t code. discriminate. Qed.

Lemma returns_throw {A} msg : returns (@throw A msg).
Proof. intros w t code. discriminate. Qed.

Lemma returns_lift {A} (f : World -> Answer A) : returns (lift f).
Proof. intros w t code. unfold lift. simpl. destruct (f w); discriminate. Qed.

Lemma returns_asks {A} (f : World -> A) : returns (asks f).
Proof. intros w t code. discriminate. Qed.

Lemma returns_now : returns now.
Proof. intros w t code. discriminate. Qed.

Lemma returns_emit e : returns (emit e).
Proof. intros w t code. discriminate. Qed.

Lemma returns_request {A} oracle (ev : Answer A -> Event) :
  returns (request oracle ev).
Proof.
  intros w t code. unfold request. simpl.
  destruct (oracle w (length t)); discriminate.
Qed.

Lemma returns_file_exists path : returns (file_exists path).
Proof. intros w t code. discriminate. Qed.

Lemma returns_bind {A B} (m : M A) (f : A -> M B) :
  returns m -> (forall a, returns (f a)) -> returns (bind m f).
Proof.
  intros Hm Hf w t code. unfold bind.
  specialize (Hm w t). destruct (m w t) as [[a|e|c] t1]; simpl in *.
  - apply Hf.
  - discriminate.
  - now destruct (Hm c).
Qed.

Lemma returns_tryCatch {A} (m : M A) (h : JsError -> M A) :
  returns m -> (forall e, returns (h e)) -> returns (tryCatch m h).
Proof.
  intros Hm Hh w t code. unfold tryCatch.
  specialize (Hm w t). destruct (m w t) as [[a|e|c] t1]; simpl in *.
  - discriminate.
  - apply Hh.
  - now destruct (Hm c).
Qed.

Lemma returns_tryFinally {A} (m : M A) (fin : M unit) :
  returns m -> returns fin -> returns (tryFinally m fin).
Proof.
  intros Hm Hf w t code. unfold tryFinally.
  specialize (Hm w t). destruct (m w t) as [[a|e|c] t1]; simpl in *;
    try (now destruct (Hm c));
    specialize (Hf w t1); destruct (fin w t1) as [[[]|e'|c'] t2]; simpl in *;
    try discriminate; now destruct (Hf c').
Qed.

Create HintDb returns discriminated.

Ltac returns_tac :=
  adds_prim;
  repeat first
    [ apply returns_ret | apply returns_throw | apply returns_lift
    | apply returns_asks | apply returns_now | apply returns_emit
    | apply returns_request | apply returns_file_exists
    | solve [eauto with returns]
    | apply returns_bind; [|intros]
    | apply returns_tryCatch; [|intros]
    | apply returns_tryFinally
    | match goal with
      | |- returns (if ?b then _ else _) => destruct b
      | |- returns (match ?x with _ => _ end) => destruct x
      | |- returns (let _ := _ in _) => cbv zeta
      end ].

Lemma queryOllama_returns model prompt : returns (queryOllama model prompt).
Proof. unfold queryOllama. returns_tac. Qed.
#[export] Hint Resolve queryOllama_returns : returns.

Lemma getProjectDirectories_returns : returns getProjectDirectories.
Proof. unfold getProjectDirectories. returns_tac. Qed.

Lemma findProjectName_returns tc dirs : returns (findProjectName tc dirs).
Proof. unfold findProjectName. returns_tac. Qed.

Lemma readTenexConfig_returns dir : returns (readTenexConfig dir).
Proof. unfold readTenexConfig. returns_tac. Qed.

Lemma readFileIfExists_returns path : returns (readFileIfExists path).
Proof. unfold readFileIfExists. returns_tac. Qed.

Lemma createDetailedTask_returns tc spec arch :
  returns (createDetailedTask tc spec arch).
Proof. unfold createDetailedTask. returns_tac. Qed.

Lemma publishNostrEvent_returns a b c d : returns (publishNostrEvent a b c d).
Proof. unfold publishNostrEvent. returns_tac. Qed.

#[export] Hint Resolve getProjectDirectories_returns findProjectName_returns
  readTenexConfig_returns readFileIfExists_returns createDetailedTask_returns
  publishNostrEvent_returns : returns.

End Completions.

(** ** Text generation: [queryOllama] and [createDetailedTask] *)

Module Generation.
Import Host Events JsString TenexTask Statements CoverageStatements.
Import TraceFacts Execution Completions.
Local Open Scope list_scope.

Lemma truthy_trim (s : string) : truthy s && truthy (trim s) = truthy (trim s).
Proof. destruct s; reflexivity. Qed.

Lemma newest_first (l : list Event) (t : Trace) : l ++ t = rev (rev l) ++ t.
Proof. now rewrite rev_involutive. Qed.

Ltac chronological :=
  first [ eapply (newest_first [])
        | eapply (newest_first [_])
        | eapply (newest_first [_; _])
        | eapply (newest_first [_; _; _])
        | eapply (newest_first [_; _; _; _])
        | eapply (newest_first [_; _; _; _; _])
        | eapply (newest_first [_; _; _; _; _; _]) ].

(** The events of a call of [queryOllama], on every path. *)
Lemma queryOllama_chronicle model prompt w t :
  let stamp := Date_now w (S (length t)) in
  exists evs,
    snd (queryOllama model prompt w t) = rev evs ++ t
    /\ queryOllama_events model prompt
         (path_join w [cwd w; ("temp_prompt_" ++ ofZ stamp ++ ".txt")%string])
         (fst (queryOllama model prompt w t)) evs.
Proof.
  cbv zeta.
  destruct (queryOllama model prompt w t) as [c t'] eqn:H.
  unfold queryOllama in H. exec H.
  all: inversion H; subst; clear H.
  all: try rewrite truthy_trim in *.
  all: eexists (rev _); cbn [fst snd]; split; [chronological|].
  all: cbn [rev app]; unfold queryOllama_events.
  all: first
    [ left; eexists; split; reflexivity
    | right;
      match goal with
      | Ew : fs_writeFile _ _ _ _ = Returned ?u,
        Es : Bun_spawn_pipe _ _ _ = ?a,
        Eu : fs_unlink _ _ _ = ?r |- _ => exists u, a, r
      end;
      split; [reflexivity|];
      cbn [stderr_report unlink_report];
      repeat match goal with
             | H : truthy (trim _) = _ |- _ => rewrite H; clear H
             end;
      reflexivity ].
Qed.

(** X1.  Every call of [queryOllama] goes one of two ways.  Either the
    prompt file cannot be written: the error is thrown, no command is run
    and nothing is deleted.  Or the file is written, the command
    [cat file | ollama run model] is run once, and the same file is
    deleted, whether the command ran or not; the call then returns the
    trimmed standard output, or throws the error of the command.  A
    standard error output is only logged (when it is not blank), and a
    failed deletion only adds a warning: neither changes the result. *)
Theorem queryOllama_deletes_its_prompt_file model prompt w t :
  let stamp := Date_now w (S (length t)) in
  exists evs,
    snd (queryOllama model prompt w t) = rev evs ++ t
    /\ queryOllama_events model prompt
         (path_join w [cwd w; ("temp_prompt_" ++ ofZ stamp ++ ".txt")%string])
         (fst (queryOllama model prompt w t)) evs.
Proof. exact (queryOllama_chronicle model prompt w t). Qed.

Lemma to_int_not_nil (z : Z) :
  Z.to_int z <> Decimal.Pos Decimal.Nil /\ Z.to_int z <> Decimal.Neg Decimal.Nil.
Proof.
  destruct z as [|p|p]; simpl; split; try discriminate.
  - intros [= H]. revert H. apply DecimalPos.Unsigned.to_uint_nonnil.
  - intros [= H]. revert H. apply DecimalPos.Unsigned.to_uint_nonnil.
Qed.

(** The decimal rendering of an integer determines it. *)
Lemma ofZ_inj (a b : Z) : ofZ a = ofZ b -> a = b.
Proof.
  unfold ofZ. intros H.
  apply DecimalZ.to_int_inj.
  destruct (to_int_not_nil a) as [A1 A2], (to_int_not_nil b) as [B1 B2].
  pose proof (NilZero.isi _ A1 A2) as Ia.
  pose proof (NilZero.isi _ B1 B2) as Ib.
  rewrite H in Ia. congruence.
Qed.

Lemma length_append (s x : string) :
  String.length (s ++ x) = String.length s + String.length x.
Proof. induction s as [|c s IH]; simpl; [reflexivity|now rewrite IH]. Qed.

Lemma append_cancel_r (x s1 s2 : string) :
  (s1 ++ x = s2 ++ x)%string -> s1 = s2.
Proof.
  revert s2. induction s1 as [|c s1 IH]; intros [|d s2] H; simpl in H.
  - reflexivity.
  - apply (f_equal String.length) in H. simpl in H.
    rewrite length_append in H. lia.
  - apply (f_equal String.length) in H. simpl in H.
    rewrite length_append in H. lia.
  - injection H as -> H. f_equal. now apply IH.
Qed.

(** X2.  The name [temp_prompt_<Date.now()>.txt] of a prompt file
    determines the time stamp: two calls use the same name exactly when
    [Date.now()] gave them the same number of milliseconds. *)
Theorem prompt_file_names_coincide_with_stamps (a b : Z) :
  String.eqb ("temp_prompt_" ++ ofZ a ++ ".txt") ("temp_prompt_" ++ ofZ b ++ ".txt")
  = Z.eqb a b.
Proof.
  destruct (Z.eqb_spec a b) as [->|N].
  - apply String.eqb_refl.
  - apply String.eqb_neq. intros H. apply N, ofZ_inj.
    simpl in H. injection H as H. now apply append_cancel_r in H.
Qed.

(** [createDetailedTask] is its log line followed by [queryOllama]. *)
Lemma createDetailedTask_unfolded tc spec arch w t :
  createDetailedTask tc spec arch w t =
  queryOllama (TASK_MODEL w) (createDetailedTask_prompt tc spec arch) w
    (ConsoleLog "Creating detailed task..." :: t).
Proof.
  unfold createDetailedTask, bind, console_log, emit, asks, ret.
  destruct (queryOllama _ _ w _) as [[r|e|c] t'] eqn:E; try reflexivity.
  apply queryOllama_normal in E.
  destruct E as (post & cmd & stdout & stderr & pre & _ & -> & _).
  now rewrite JsStringFacts.trim_idem.
Qed.

(** X3.  [createDetailedTask] adds one log line to [queryOllama] and
    nothing else: its own [trim] of the response never changes it, since
    [queryOllama] has trimmed it already, and errors pass through. *)
Theorem createDetailedTask_second_trim_changes_nothing tc spec arch w t :
  createDetailedTask tc spec arch w t =
  queryOllama (TASK_MODEL w) (createDetailedTask_prompt tc spec arch) w
    (ConsoleLog "Creating detailed task..." :: t).
Proof. exact (createDetailedTask_unfolded tc spec arch w t). Qed.

End Generation.

(** ** Project resolution: what [findProjectName] can return *)

Module Matching.
Import Host Events JsString TenexTask Statements CoverageStatements.
Import TraceFacts Execution.
Local Open Scope list_scope.

Lemma find_split {A} (p : A -> bool) l d :
  find p l = Some d ->
  exists pre post,
    l = pre ++ d :: post /\ Forall (fun x => p x = false) pre /\ p d = true.
Proof.
  induction l as [|x l IH]; simpl; [discriminate|].
  destruct (p x) eqn:Hx.
  - intros [= ->]. exists [], l. now repeat split.
  - intros H. destruct (IH H) as (pre & post & -> & Hpre & Hd).
    exists (x :: pre), post. repeat split; auto.
Qed.

(** X4.  A directory returned by [findProjectName] is never invented: it
    is an entry of the inventory, it is not the empty string, it
    satisfies one of the four comparisons with the trimmed output of the
    generation command that was run, and no entry before it does. *)
Theorem resolved_directory_is_an_inventory_entry tc dirs w t d t' :
  findProjectName tc dirs w t = (Normal d, t') ->
  resolution_evidence dirs t d t'.
Proof.
  intros H. unfold findProjectName in H.
  unfold bind at 1 in H. unfold console_log, emit at 1 in H.
  unfold bind at 1 in H. unfold asks at 1 in H.
  unfold bind at 1 in H.
  destruct (queryOllama _ _ w _) as [[r|e|c] t1] eqn:E; try discriminate.
  apply queryOllama_normal in E.
  destruct E as (post & cmd & stdout & stderr & pre & -> & -> & _ & _).
  cbv zeta in H.
  destruct (find _ dirs) as [m|] eqn:F.
  2:{ unfold bind, console_error, emit, throw in H. discriminate. }
  destruct (truthy m) eqn:Tm.
  2:{ unfold bind, console_error, emit, throw in H. discriminate. }
  unfold bind, console_log, emit, ret in H. inversion H; subst; clear H.
  destruct (find_split _ _ _ F) as (pre' & post' & Hd & Hpre & Hm).
  exists (ConsoleLog ("Identified project directory: " ++ d)
            :: post ++ SpawnPipe cmd (Returned (stdout, stderr))
            :: pre ++ [ConsoleLog "Finding project name from transcript..."]),
    cmd, stdout, stderr.
  split; [cbn [app]; rewrite <- app_assoc; cbn [app]; rewrite <- app_assoc;
          reflexivity|].
  split; [right; apply in_or_app; right; now left|].
  split; [intros ->; discriminate Tm|]. split; [exact Hm|]. now exists pre', post'.
Qed.

Lemma resolved_directory_is_an_inventory_entry_witness :
  exists t',
    findProjectName Demo.transcript ["Backend-ab12"; "Shipyard-rux5kf"]
      (Demo.answering "Shipyard") []
    = (Normal "Shipyard-rux5kf", t')
    /\ resolution_evidence ["Backend-ab12"; "Shipyard-rux5kf"] []
         "Shipyard-rux5kf" t'.
Proof.
  eexists. split; [vm_compute; reflexivity|].
  apply (resolved_directory_is_an_inventory_entry Demo.transcript _
           (Demo.answering "Shipyard")).
  vm_compute; reflexivity.
Defined.

Lemma first_split_segment (sep : ascii) (name rest : string) :
  free_of sep name ->
  first (split sep (name ++ String sep rest)) = name.
Proof.
  induction name as [|c name IH]; simpl; intros H.
  - now rewrite Ascii.eqb_refl.
  - destruct H as [Hc Hn]. apply Ascii.eqb_neq in Hc. rewrite Hc.
    specialize (IH Hn).
    pose proof (JsStringFacts.split_nonempty sep (name ++ String sep rest)) as NE.
    destruct (split sep (name ++ String sep rest)); [contradiction|].
    simpl in *. now rewrite IH.
Qed.

Lemma startsWith_append (s tail : string) : startsWith (s ++ tail) s = true.
Proof.
  induction s as [|c s IH]; simpl; [apply JsStringFacts.startsWith_empty|].
  now rewrite Ascii.eqb_refl, IH.
Qed.

(** X5.  A directory [name-suffix], where [name] holds no hyphen, is
    matched by every response that starts with [name], whatever follows
    it and whatever the suffix: this is how a project is found from its
    readable name.  With an empty [name] it also says that a directory
    whose name starts with a hyphen is matched by every response. *)
Theorem response_naming_the_leading_segment_matches (name suffix tail : string) :
  free_of "-" name ->
  findProjectName_matches (name ++ tail) (name ++ String "-" suffix) = true.
Proof.
  intros H. unfold findProjectName_matches.
  rewrite (first_split_segment _ _ _ H), startsWith_append.
  apply orb_true_r.
Qed.

Lemma response_naming_the_leading_segment_matches_witness :
  findProjectName_matches "TENEX project" "TENEX-pfkmc9" = true.
Proof.
  apply (response_naming_the_leading_segment_matches "TENEX" "pfkmc9" " project").
  simpl. repeat split; discriminate.
Defined.

End Matching.

(** ** Whole runs of [processTenexTask] *)

Module Runs.
Import Host Events JsString TenexTask Statements CoverageStatements.
Import TraceFacts Execution Completions Generation.
Local Open Scope list_scope.

Lemma rev_last1 {A} (a : A) l : rev (a :: l) = rev l ++ [a].
Proof. reflexivity. Qed.

Lemma rev_last2 {A} (a b : A) l : rev (a :: b :: l) = rev l ++ [b; a].
Proof. simpl. now rewrite <- app_assoc. Qed.

Lemma rev_split4 (A C : list Event) e1 e2 e3 e4 raw :
  raw = A ++ e4 :: e3 :: e2 :: e1 :: C ->
  rev raw = rev C ++ [e1; e2; e3; e4] ++ rev A.
Proof.
  intros ->. rewrite rev_app_distr. simpl. repeat rewrite <- app_assoc. reflexivity.
Qed.

(** A called function that would have exited the process. *)
Ltac no_exit_branch :=
  match goal with
  | E : ?f ?w ?t = (Exit ?c, _) |- _ =>
      exfalso;
      assert (R : returns f) by eauto with returns;
      apply (R w t c); rewrite E; reflexivity
  end.

Ltac more_facts :=
  repeat match goal with
  | E : getProjectDirectories _ _ = _ |- _ =>
      called getProjectDirectories_adds E
  end.

Ltac all_events :=
  repeat first
    [ apply Forall_nil
    | apply Forall_cons; [exact I|]
    | apply Forall_app; split
    | solve [eapply Forall_impl; [|eassumption]; intros []; simpl; tauto] ].

Ltac find_in :=
  repeat match goal with
         | |- In _ (_ :: _) => first [ left; reflexivity | right ]
         | |- In _ ((_ :: _) ++ _) => apply in_or_app; left
         | |- In _ (_ ++ _) => apply in_or_app; right
         end.

(** A call of [processTenexTask] never ends with an uncaught error.  It
    either completes, its last event being the line
    [Script finished successfully], or exits with status 1, its last two
    events being the line [Error during processing: ...] and the exit;
    it calls [process.exit] nowhere before. *)
Lemma processTenexTask_ends_in_order w path :
  ends_in_order (fst (run w path)) (snd (run w path)).
Proof.
  unfold run.
  destruct (processTenexTask path w []) as [c0 t0] eqn:E. cbn [fst snd].
  unfold processTenexTask, processTenexTask_steps_1_3,
    processTenexTask_steps_4_10, publishNostrEvent in E.
  exec E.
  all: try no_exit_branch.
  all: inversion E; subst; clear E.
  all: trace_facts; more_facts.
  all: unfold ends_in_order.
  all: repeat match goal with u : unit |- _ => destruct u end.
  all: first
    [ left; split; [reflexivity|]; eexists (rev _); split; [apply rev_last1|]
    | right; split; [reflexivity|]; eexists (rev _), _; split; [apply rev_last2|] ].
  all: apply Forall_rev; all_events.
Qed.

Lemma gc_rev_cons x l :
  generation_commands (rev (x :: l))
  = generation_commands (rev l) ++ generation_commands [x].
Proof. unfold generation_commands. simpl rev. apply flat_map_app. Qed.

Lemma gc_rev_app a b :
  generation_commands (rev (a ++ b))
  = generation_commands (rev b) ++ generation_commands (rev a).
Proof. unfold generation_commands. rewrite rev_app_distr. apply flat_map_app. Qed.

Lemma pc_rev_cons x l :
  publication_calls (rev (x :: l))
  = publication_calls (rev l) ++ publication_calls [x].
Proof. unfold publication_calls. simpl rev. apply flat_map_app. Qed.

Lemma pc_rev_app a b :
  publication_calls (rev (a ++ b))
  = publication_calls (rev b) ++ publication_calls (rev a).
Proof. unfold publication_calls. rewrite rev_app_distr. apply flat_map_app. Qed.

Lemma no_spawn_no_calls evs :
  Forall no_spawn evs ->
  generation_commands (rev evs) = [] /\ publication_calls (rev evs) = [].
Proof.
  induction 1 as [|x l Hx _ [IHg IHp]]; [now split|].
  rewrite gc_rev_cons, pc_rev_cons, IHg, IHp.
  destruct x; try discriminate Hx; now split.
Qed.

Lemma read_events_no_calls evs :
  Forall read_event evs ->
  generation_commands (rev evs) = [] /\ publication_calls (rev evs) = [].
Proof.
  intros H. apply no_spawn_no_calls.
  eapply Forall_impl; [|exact H]. now intros [].
Qed.

Lemma inventory_events_no_calls evs :
  Forall inventory_event evs ->
  generation_commands (rev evs) = [] /\ publication_calls (rev evs) = [].
Proof.
  intros H. apply no_spawn_no_calls.
  eapply Forall_impl; [|exact H]. now intros [].
Qed.

Lemma queryOllama_calls model prompt w t :
  exists evs,
    snd (queryOllama model prompt w t) = evs ++ t
    /\ one_generation model (fst (queryOllama model prompt w t)) evs.
Proof.
  destruct (queryOllama_chronicle model prompt w t) as (chron & Ht & Hs).
  exists (rev chron). split; [exact Ht|].
  unfold one_generation. rewrite rev_involutive.
  destruct Hs as [(e & -> & ->) | (u & a & r & -> & ->)].
  - split; [reflexivity|]. right. split; [reflexivity|]. now exists e.
  - unfold generation_commands, publication_calls.
    rewrite !flat_map_app.
    assert (Hs : forall f, (forall m, f (ConsoleError m) = @nil (list string)) ->
                 flat_map f (stderr_report a) = []).
    { intros f Hf. destruct a as [[o s]|]; simpl; [|reflexivity].
      destruct (truthy (trim s)); simpl; [now rewrite Hf | reflexivity]. }
    assert (Hp : forall f, (forall m, f (ConsoleError m) = @nil (list JsValue.t)) ->
                 flat_map f (stderr_report a) = []).
    { intros f Hf. destruct a as [[o s]|]; simpl; [|reflexivity].
      destruct (truthy (trim s)); simpl; [now rewrite Hf | reflexivity]. }
    rewrite Hs, Hp by reflexivity.
    destruct r; simpl; (split; [reflexivity|]); left; eexists; reflexivity.
Qed.

Lemma findProjectName_calls tc dirs w t :
  exists evs,
    snd (findProjectName tc dirs w t) = evs ++ t
    /\ one_generation (FIND_PROJECT_MODEL w) (fst (findProjectName tc dirs w t)) evs.
Proof.
  destruct (findProjectName tc dirs w t) as [c t'] eqn:H. cbn [fst snd].
  unfold findProjectName in H.
  unfold bind at 1 in H. unfold console_log, emit at 1 in H.
  unfold bind at 1 in H. unfold asks at 1 in H.
  unfold bind at 1 in H.
  destruct (queryOllama_calls (FIND_PROJECT_MODEL w)
              (findProjectName_prompt tc dirs) w
              (ConsoleLog "Finding project name from transcript..." :: t))
    as (evs & Ht & Hp & Hg).
  destruct (queryOllama _ _ w _) as [[r|e|x] t1] eqn:E; cbn [fst snd] in *; subst t1.
  - cbv zeta in H.
    assert (Hg' : exists path,
               generation_commands (rev evs)
               = [ollama_command path (FIND_PROJECT_MODEL w)]).
    { destruct Hg as [Hg|[_ [e He]]]; [exact Hg | discriminate He]. }
    destruct (find _ dirs) as [m|]; [destruct (truthy m)|];
      unfold bind, console_log, console_error, emit, throw, ret in H;
      inversion H; subst; clear H;
      (eexists (_ :: evs ++ [_]); split;
       [cbn [app]; rewrite <- app_assoc; reflexivity|]);
      (split;
       [ rewrite pc_rev_cons, pc_rev_app, Hp; reflexivity
       | left; destruct Hg' as [p Hp']; exists p;
         rewrite gc_rev_cons, gc_rev_app, Hp'; reflexivity ]).
  - inversion H; subst; clear H.
    eexists (evs ++ [_]); split; [rewrite <- app_assoc; reflexivity|].
    split; [rewrite pc_rev_app, Hp; reflexivity|].
    destruct Hg as [[p Hp']|[Hg _]].
    + left. exists p. rewrite gc_rev_app, Hp'. reflexivity.
    + right. split; [rewrite gc_rev_app, Hg; reflexivity | now exists e].
  - exfalso.
    eapply (queryOllama_returns _ _ w _ x). rewrite E. reflexivity.
Qed.

Lemma createDetailedTask_calls tc spec arch w t :
  exists evs,
    snd (createDetailedTask tc spec arch w t) = evs ++ t
    /\ one_generation (TASK_MODEL w) (fst (createDetailedTask tc spec arch w t)) evs.
Proof.
  rewrite createDetailedTask_unfolded.
  destruct (queryOllama_calls (TASK_MODEL w)
              (createDetailedTask_prompt tc spec arch) w
              (ConsoleLog "Creating detailed task..." :: t))
    as (evs & Ht & Hp & Hg).
  exists (evs ++ [ConsoleLog "Creating detailed task..."]).
  split; [rewrite Ht, <- app_assoc; reflexivity|].
  split; [rewrite pc_rev_app, Hp; reflexivity|].
  destruct Hg as [[p Hp']|[Hg He]].
  - left. exists p. rewrite gc_rev_app, Hp'. reflexivity.
  - right. split; [rewrite gc_rev_app, Hg; reflexivity | exact He].
Qed.

Ltac calls_facts :=
  repeat match goal with
  | E : findProjectName ?a ?b ?w ?t = (_, ?t') |- _ =>
      let evs := fresh "evs" in
      let Et := fresh "Et" in let Hp := fresh "Hp" in let Hg := fresh "Hg" in
      destruct (findProjectName_calls a b w t) as (evs & Et & Hp & Hg);
      rewrite E in Et, Hg; cbn [fst snd] in Et, Hg; subst t'; clear E
  | E : createDetailedTask ?a ?b ?c ?w ?t = (_, ?t') |- _ =>
      let evs := fresh "evs" in
      let Et := fresh "Et" in let Hp := fresh "Hp" in let Hg := fresh "Hg" in
      destruct (createDetailedTask_calls a b c w t) as (evs & Et & Hp & Hg);
      rewrite E in Et, Hg; cbn [fst snd] in Et, Hg; subst t'; clear E
  end;
  trace_facts; more_facts;
  repeat match goal with
  | F : Forall read_event ?evs |- _ =>
      destruct (read_events_no_calls evs F); clear F
  | F : Forall inventory_event ?evs |- _ =>
      destruct (inventory_events_no_calls evs F); clear F
  | H : (exists _, generation_commands _ = _) \/ _ |- _ =>
      destruct H as [[? H] | [H [? ?]]]; try discriminate
  end.

Ltac count_calls :=
  repeat first [ rewrite gc_rev_cons | rewrite gc_rev_app
               | rewrite pc_rev_cons | rewrite pc_rev_app ];
  repeat match goal with
  | H : generation_commands (rev _) = _ |- _ => rewrite H; clear H
  | H : publication_calls (rev _) = _ |- _ => rewrite H; clear H
  end;
  cbn [generation_commands publication_calls flat_map app rev length].

(** X7.  A run starts at most three child processes and never repeats
    one: the generation command with the project-resolution model, then
    the generation command with the task-synthesis model, then at most
    one publication command, which is only started after both
    generation commands. *)
Theorem run_within_call_budget w path :
  within_call_budget w (snd (run w path)).
Proof.
  unfold run.
  destruct (processTenexTask path w []) as [c0 t0] eqn:E. cbn [fst snd].
  unfold processTenexTask, processTenexTask_steps_1_3,
    processTenexTask_steps_4_10, publishNostrEvent in E.
  exec E.
  all: try no_exit_branch.
  all: inversion E; subst; clear E.
  all: calls_facts.
  all: unfold within_call_budget; eexists _, _; cbv zeta.
  all: count_calls.
  all: first [ left; split; reflexivity
             | right; left; split; reflexivity
             | right; right; split; [reflexivity | cbn; lia] ].
  Unshelve. all: exact ""%string.
Qed.

Lemma readTenexConfig_normal dir w t v t' :
  readTenexConfig dir w t = (Normal v, t') ->
  let configPath := path_join w [TENEX_PROJECTS_DIR w; dir; ".tenex.json"%string] in
  exists content,
    t' = [FsReadFile configPath (Returned content);
          ConsoleLog ("Reading Tenex config from: " ++ configPath)] ++ t
    /\ JSON_parse w content = Returned v.
Proof.
  intros H. unfold readTenexConfig in H. exec H; try discriminate.
  inversion H; subst; clear H. cbv zeta. eexists. split; [reflexivity|eassumption].
Qed.

(** Only an object gives a truthy [nsec] to the destructuring. *)
Lemma destructure_truthy w v nsec eventId :
  destructure w v = Returned (nsec, eventId) ->
  JsValue.ToBoolean nsec = true ->
  exists props,
    v = JsValue.Object props
    /\ nsec = JsValue.lookup "nsec" props
    /\ eventId = JsValue.lookup "eventId" props.
Proof.
  destruct v; simpl; intros [= <- <-] T; try discriminate T.
  now eexists.
Qed.

(** X8.  In every run, a publication call is made only with credentials:
    its [--sec] argument and its [a=] tag are the [nsec] and [eventId]
    properties, both truthy, of the JSON object that the descriptor read
    earlier in the run parses to, [eventId] being a value that can be
    converted to a string; and it directly follows the write of
    [temp_task.md], which holds the very text that is published. *)
Theorem publication_needs_credentials_and_temp_file w path c tr argv r :
  run w path = (c, tr) ->
  In (SpawnInherit argv r) tr ->
  publishes_with_credentials w tr argv r.
Proof.
  unfold run, publishes_with_credentials. intros H Hin.
  destruct (processTenexTask path w []) as [c0 t0] eqn:E.
  inversion H; subst; clear H. apply in_rev in Hin.
  unfold processTenexTask, processTenexTask_steps_4_10, publishNostrEvent in E.
  exec E.
  all: inversion E; subst; clear E.
  all: try match goal with
       | E : readTenexConfig _ _ _ = (Normal _, _) |- _ =>
           apply readTenexConfig_normal in E; cbv zeta in E;
           destruct E as (content & -> & Hparse)
       end.
  all: trace_facts.
  all: hunt Hin.
  all: inversion Hin; subst; clear Hin.
  all: repeat match goal with u : unit |- _ => destruct u end.
  all: match goal with
       | E : negb (JsValue.ToBoolean _) || negb (JsValue.ToBoolean _) = false |- _ =>
           apply orb_false_elim in E; destruct E as [Tn Te];
           apply negb_false_iff in Tn; apply negb_false_iff in Te
       end.
  all: match goal with
       | E : destructure _ _ = Returned _ |- _ =>
           destruct (destructure_truthy _ _ _ _ E Tn) as (props & -> & -> & ->)
       end.
  all: cbv zeta; eexists (rev _), (rev _), _, content, props, _.
  all: split;
    [ first [ eapply (rev_split4 [_; _]); reflexivity
            | eapply (rev_split4 [_; _; _; _]); reflexivity
            | eapply (rev_split4 [_; _; _; _; _]); reflexivity ] |].
  all: split; [apply -> in_rev; find_in|].
  all: split; [exact Hparse|].
  all: split; [exact Tn|]. all: split; [exact Te|].
  all: split; [assumption|].
  all: reflexivity.
Qed.

Lemma publication_needs_credentials_and_temp_file_witness :
  publishes_with_credentials (Demo.publishing 0)
    (snd (run (Demo.publishing 0) "t.txt")) Demo.published_argv (Returned 0%Z).
Proof.
  apply (publication_needs_credentials_and_temp_file (Demo.publishing 0) "t.txt"
           (fst (run (Demo.publishing 0) "t.txt"))).
  - apply surjective_pairing.
  - vm_compute. repeat first [left; reflexivity | right].
Defined.

(** X9.  When the publication command cannot be started at all (the
    [spawn] call throws), the run exits with status 1 right after it:
    [temp_task.md], written just before, is not deleted. *)
Theorem unstartable_publication_skips_cleanup w path c tr argv e :
  run w path = (c, tr) ->
  In (SpawnInherit argv (Failed e)) tr ->
  c = Exit 1 /\ leaves_temp_file_behind w tr argv e.
Proof.
  unfold run, leaves_temp_file_behind. intros H Hin.
  destruct (processTenexTask path w []) as [c0 t0] eqn:E.
  inversion H; subst; clear H. apply in_rev in Hin.
  unfold processTenexTask, processTenexTask_steps_4_10, publishNostrEvent in E.
  exec E.
  all: inversion E; subst; clear E.
  all: trace_facts.
  all: hunt Hin.
  all: inversion Hin; subst; clear Hin.
  all: repeat match goal with u : unit |- _ => destruct u end.
  all: split; [reflexivity|]; cbv zeta.
  all: eexists (rev _), _.
  all: match goal with
       | |- rev (?a :: ?b :: ?c :: ?d :: ?e :: ?f :: ?rest) = _ =>
           change (a :: b :: c :: d :: e :: f :: rest)
             with ([a; b; c; d; e; f] ++ rest)
       end.
  all: rewrite rev_app_distr; reflexivity.
Qed.

Lemma unstartable_publication_skips_cleanup_witness :
  fst (run without_nak "t.txt") = Exit 1
  /\ leaves_temp_file_behind without_nak (snd (run without_nak "t.txt"))
       Demo.published_argv nak_missing.
Proof.
  apply (unstartable_publication_skips_cleanup without_nak "t.txt").
  - apply surjective_pairing.
  - vm_compute. repeat first [left; reflexivity | right].
Defined.

(** When the transcript file does not exist, [processTenexTask] stops
    at once: it logs that the file was not found and exits with status
    1. *)
Lemma processTenexTask_without_transcript w path :
  Bun_file_exists w 1 (path_resolve w path) = false ->
  run w path =
  (Exit 1,
   [ConsoleLog ("Processing Tenex task from: " ++ path);
    BunFileExists (path_resolve w path) false;
    ConsoleError ("Error during processing: Transcript file not found: "
                  ++ path_resolve w path);
    ProcessExit 1]).
Proof.
  intros H.
  unfold run, processTenexTask, processTenexTask_steps_1_3.
  unfold bind at 1. unfold console_log at 1. unfold emit at 1.
  unfold tryCatch at 1. unfold bind at 1. unfold bind at 1.
  unfold asks at 1. unfold bind at 1. unfold file_exists at 1.
  cbn [length]. rewrite H. cbn [negb].
  unfold bind at 1. unfold throw at 1.
  unfold bind, console_error, emit, process_exit. reflexivity.
Qed.

(** X11.  When the descriptor of the project found cannot be read, or
    is not valid JSON, [readTenexConfig] logs the cause and throws one
    and the same error, [Could not read .tenex.json for project <dir>];
    the run then exits with status 1 without doing anything else. *)
Theorem unreadable_descriptor_aborts w path tc dir t1 e t2 :
  processTenexTask_steps_1_3 path w
    [ConsoleLog ("Processing Tenex task from: " ++ path)]
  = (Normal (tc, dir), t1) ->
  readTenexConfig dir w t1 = (Throw e, t2) ->
  e = mkError ("Could not read .tenex.json for project " ++ dir)
  /\ aborts_on_unreadable_descriptor w path dir t1 t2.
Proof.
  intros H13 Hcfg.
  assert (Hrun : run w path =
       (Exit 1,
        rev t2 ++
        [ConsoleError ("Error during processing: " ++ message e); ProcessExit 1])).
  { unfold run, processTenexTask, processTenexTask_steps_4_10.
    unfold bind at 1. unfold console_log at 1. unfold emit at 1.
    unfold tryCatch at 1. unfold bind at 1. rewrite H13.
    unfold bind at 1. rewrite Hcfg.
    unfold bind, console_error, emit, process_exit. cbv beta iota.
    cbn [rev]. rewrite <- app_assoc. reflexivity. }
  unfold aborts_on_unreadable_descriptor. cbv zeta.
  unfold readTenexConfig in Hcfg. exec Hcfg; try discriminate.
  all: inversion Hcfg; subst; clear Hcfg.
  all: split; [reflexivity|].
  all: match goal with
       | E : fs_readFile _ _ _ = ?a |- _ => exists a
       end.
  all: eexists; split; [first [reflexivity | eassumption]|].
  all: split; [reflexivity | exact Hrun].
Qed.

Lemma unreadable_descriptor_aborts_witness :
  exists t1 t2,
    processTenexTask_steps_1_3 "t.txt" with_malformed_descriptor
      [ConsoleLog "Processing Tenex task from: t.txt"]
    = (Normal (Demo.transcript, "Shipyard-rux5kf"), t1)
    /\ readTenexConfig "Shipyard-rux5kf" with_malformed_descriptor t1
       = (Throw (mkError "Could not read .tenex.json for project Shipyard-rux5kf"),
          t2)
    /\ (mkError "Could not read .tenex.json for project Shipyard-rux5kf"
        = mkError ("Could not read .tenex.json for project " ++ "Shipyard-rux5kf")
        /\ aborts_on_unreadable_descriptor with_malformed_descriptor "t.txt"
             "Shipyard-rux5kf" t1 t2).
Proof.
  eexists _, _.
  split; [vm_compute; reflexivity|]. split; [vm_compute; reflexivity|].
  eapply (unreadable_descriptor_aborts with_malformed_descriptor "t.txt"
            Demo.transcript "Shipyard-rux5kf");
    vm_compute; reflexivity.
Defined.

(** The events [evs] (newest first) of a function that makes one
    generation call: when the command could not be run, the function
    throws its error and its last events are the failure tail. *)
Definition fails_with_its_generation {A} (c : Completion A)
    (evs : list Event) : Prop :=
  Forall ollama_event evs
  /\ forall cmd e,
       In (SpawnPipe cmd (Failed e)) evs ->
       c = Throw e
       /\ exists pre tail,
            rev evs = pre ++ tail /\ generation_failure_tail cmd e tail.

Lemma queryOllama_failure model prompt w t :
  exists evs,
    snd (queryOllama model prompt w t) = evs ++ t
    /\ fails_with_its_generation (fst (queryOllama model prompt w t)) evs.
Proof.
  destruct (queryOllama_adds model prompt w t) as (evs & Ht & F).
  exists evs. split; [exact Ht|]. split; [exact F|].
  intros cmd e Hin.
  destruct (queryOllama_chronicle model prompt w t) as (chron & Hc & Hs).
  cbv zeta in Hs. rewrite Ht in Hc. apply app_inv_tail in Hc. subst evs.
  rewrite rev_involutive. apply in_rev in Hin. rewrite ?rev_involutive in Hin.
  destruct Hs as [(e0 & _ & ->) | (u & a & r & -> & ->)].
  - destruct Hin as [Hin|[Hin|[]]]; discriminate Hin.
  - apply in_app_or in Hin. destruct Hin as [Hin|Hin].
    + destruct Hin as [Hin|[Hin|[Hin|[]]]]; try discriminate Hin.
      injection Hin as <- ->. split; [reflexivity|].
      eexists [_; _], _. split; [reflexivity|]. eexists _, r. reflexivity.
    + exfalso. apply in_app_or in Hin. destruct Hin as [Hin|Hin].
      * destruct a as [[o s]|]; simpl in Hin; [|contradiction].
        destruct (truthy (trim s)); simpl in Hin; [|contradiction].
        destruct Hin as [Hin|[]]; discriminate Hin.
      * destruct Hin as [Hin|Hin]; [discriminate Hin|].
        destruct r; simpl in Hin; [contradiction|].
        destruct Hin as [Hin|[]]; discriminate Hin.
Qed.

Lemma createDetailedTask_failure tc spec arch w t :
  exists evs,
    snd (createDetailedTask tc spec arch w t) = evs ++ t
    /\ fails_with_its_generation (fst (createDetailedTask tc spec arch w t)) evs.
Proof.
  rewrite createDetailedTask_unfolded.
  destruct (queryOllama_failure (TASK_MODEL w)
              (createDetailedTask_prompt tc spec arch) w
              (ConsoleLog "Creating detailed task..." :: t))
    as (evs & Ht & F & G).
  exists (evs ++ [ConsoleLog "Creating detailed task..."]).
  split; [rewrite Ht, <- app_assoc; reflexivity|].
  split; [apply Forall_app; split; [exact F | repeat constructor]|].
  intros cmd e Hin. apply in_app_or in Hin.
  destruct Hin as [Hin|[Hin|[]]]; [|discriminate Hin].
  destruct (G cmd e Hin) as (Hc & pre & tail & Hr & Ht').
  split; [exact Hc|].
  exists (ConsoleLog "Creating detailed task..." :: pre), tail.
  split; [rewrite rev_app_distr, Hr; reflexivity | exact Ht'].
Qed.

Lemma findProjectName_failure tc dirs w t :
  exists evs,
    snd (findProjectName tc dirs w t) = evs ++ t
    /\ fails_with_its_generation (fst (findProjectName tc dirs w t)) evs.
Proof.
  destruct (findProjectName tc dirs w t) as [c t'] eqn:H. cbn [fst snd].
  unfold findProjectName in H.
  unfold bind at 1 in H. unfold console_log, emit at 1 in H.
  unfold bind at 1 in H. unfold asks at 1 in H.
  unfold bind at 1 in H.
  destruct (queryOllama_failure (FIND_PROJECT_MODEL w)
              (findProjectName_prompt tc dirs) w
              (ConsoleLog "Finding project name from transcript..." :: t))
    as (evs & Ht & F & G).
  destruct (queryOllama _ _ w _) as [[r|e0|x] t1] eqn:E; cbn [fst snd] in *; subst t1.
  - cbv zeta in H.
    destruct (find _ dirs) as [m|]; [destruct (truthy m)|];
      unfold bind, console_log, console_error, emit, throw, ret in H;
      inversion H; subst; clear H;
      (eexists (_ :: evs ++ [_]); split;
       [cbn [app]; rewrite <- app_assoc; reflexivity|]);
      (split;
       [ constructor; [exact I|]; apply Forall_app; split;
         [exact F | repeat constructor]
       | intros cmd e Hin;
         destruct Hin as [Hin|Hin]; [discriminate Hin|];
         apply in_app_or in Hin;
         destruct Hin as [Hin|[Hin|[]]]; [|discriminate Hin];
         destruct (G cmd e Hin) as (Hc & _); discriminate Hc ]).
  - inversion H; subst; clear H.
    eexists (evs ++ [_]); split; [rewrite <- app_assoc; reflexivity|].
    split; [apply Forall_app; split; [exact F | repeat constructor]|].
    intros cmd e Hin. apply in_app_or in Hin.
    destruct Hin as [Hin|[Hin|[]]]; [|discriminate Hin].
    destruct (G cmd e Hin) as (Hc & pre & tail & Hr & Ht').
    split; [exact Hc|].
    exists (ConsoleLog "Finding project name from transcript..." :: pre), tail.
    split; [rewrite rev_app_distr, Hr; reflexivity | exact Ht'].
  - exfalso.
    eapply (queryOllama_returns _ _ w _ x). rewrite E. reflexivity.
Qed.

Ltac generation_facts :=
  repeat match goal with
  | E : findProjectName ?a ?b ?w ?t = (_, ?t') |- _ =>
      let evs := fresh "evs" in
      let Et := fresh "Et" in let F := fresh "F" in let G := fresh "G" in
      destruct (findProjectName_failure a b w t) as (evs & Et & F & G);
      rewrite E in Et, G; cbn [fst snd] in Et, G; subst t'; clear E
  | E : createDetailedTask ?a ?b ?c ?w ?t = (_, ?t') |- _ =>
      let evs := fresh "evs" in
      let Et := fresh "Et" in let F := fresh "F" in let G := fresh "G" in
      destruct (createDetailedTask_failure a b c w t) as (evs & Et & F & G);
      rewrite E in Et, G; cbn [fst snd] in Et, G; subst t'; clear E
  end;
  trace_facts; more_facts.

(** X12.  When a generation command cannot be run, for the project or
    for the task, the run still deletes the prompt file of that call (a
    failed deletion only adds a warning), then logs the error of the
    command and exits with status 1; nothing else follows. *)
Theorem failed_generation_aborts_after_cleanup w path c tr cmd e :
  run w path = (c, tr) ->
  In (SpawnPipe cmd (Failed e)) tr ->
  c = Exit 1 /\ aborts_after_generation_failure tr cmd e.
Proof.
  unfold run, aborts_after_generation_failure. intros H Hin.
  destruct (processTenexTask path w []) as [c0 t0] eqn:E.
  inversion H; subst; clear H. apply in_rev in Hin.
  unfold processTenexTask, processTenexTask_steps_1_3,
    processTenexTask_steps_4_10, publishNostrEvent in E.
  exec E.
  all: try no_exit_branch.
  all: inversion E; subst; clear E.
  all: generation_facts.
  all: hunt Hin.
  all: match goal with
       | G : forall cmd e, In _ ?evs -> _, H : In _ ?evs |- _ =>
           destruct (G _ _ H) as (Hc & pre & tail & Hr & Htail)
       end.
  all: try discriminate Hc.
  all: injection Hc as ->.
  all: split; [reflexivity|].
  all: eexists (rev _ ++ pre), tail; split; [exact Htail|].
  all: rewrite rev_last2, rev_app_distr, Hr.
  all: repeat rewrite <- app_assoc; reflexivity.
Qed.

Lemma failed_generation_aborts_after_cleanup_witness :
  fst (run without_ollama "t.txt") = Exit 1
  /\ aborts_after_generation_failure (snd (run without_ollama "t.txt"))
       (ollama_command "/work/temp_prompt_1700000000009.txt" "llama3.2")
       ollama_missing.
Proof.
  apply (failed_generation_aborts_after_cleanup without_ollama "t.txt").
  - apply surjective_pairing.
  - vm_compute. repeat first [left; reflexivity | right].
Defined.

Lemma join_split (c : ascii) (s : string) :
  join (String c "") (split c s) = s.
Proof.
  induction s as [|a s IH]; [reflexivity|].
  cbn [split]. pose proof (JsStringFacts.split_nonempty c s) as NE.
  destruct (Ascii.eqb a c) eqn:E.
  - apply Ascii.eqb_eq in E; subst a.
    destruct (split c s) as [|x xs]; [contradiction|].
    cbn [join append] in *. now rewrite IH.
  - destruct (split c s) as [|x xs]; [contradiction|].
    destruct xs as [|y ys]; cbn [join append] in *; now rewrite IH.
Qed.

Lemma split_free (c : ascii) (s : string) : Forall (free_of c) (split c s).
Proof.
  induction s as [|a s IH]; cbn [split]; [repeat constructor|].
  destruct (Ascii.eqb a c) eqn:E.
  - constructor; [exact I | exact IH].
  - apply Ascii.eqb_neq in E.
    destruct (split c s) as [|x xs]; [repeat constructor; exact E|].
    inversion IH; subst. constructor; [now split | assumption].
Qed.

Lemma env_or_nonempty w name fallback :
  fallback <> ""%string -> env_or w name fallback <> ""%string.
Proof.
  intros H. unfold env_or. destruct (env w name) as [v|]; [|exact H].
  destruct v; [exact H | discriminate].
Qed.

(** X13.  The relay arguments of the publication command are the pieces
    of [RELAYS] between its spaces: there is at least one, none holds a
    space, and joined by single spaces they give [RELAYS] back (so two
    spaces in a row give an empty argument).  [RELAYS] itself is never
    empty, an empty environment variable falling back to the default. *)
Theorem relay_arguments_read_back w nsec eventId title content :
  let relays := split " " (RELAYS w) in
  skipn 12 (publishNostrEvent_argv w nsec eventId title content)
  = map JsValue.Str relays
  /\ relays <> []
  /\ join " " relays = RELAYS w
  /\ Forall (free_of " ") relays
  /\ RELAYS w <> ""%string.
Proof.
  cbv zeta. split; [reflexivity|].
  split; [apply JsStringFacts.split_nonempty|].
  split; [apply join_split|].
  split; [apply split_free|].
  now apply env_or_nonempty.
Qed.

Lemma unpublished_no_calls evs :
  Forall unpublished evs -> publication_calls (rev evs) = [].
Proof.
  induction 1 as [|x l Hx _ IH]; [reflexivity|].
  rewrite pc_rev_cons, IH. destruct x; try contradiction Hx; reflexivity.
Qed.

(** X14.  A descriptor whose [eventId] cannot be converted to a string
    (an object with a property [toString], or an array that holds one)
    is never published: the template literal of the [a=] tag throws
    before the publication command is started, so the run exits with
    status 1, as it does when it fails earlier, and its trace holds no
    publication call. *)
Theorem unconvertible_event_id_is_never_published w path tc dir t1 props t2 :
  processTenexTask_steps_1_3 path w
    [ConsoleLog ("Processing Tenex task from: " ++ path)]
  = (Normal (tc, dir), t1) ->
  readTenexConfig dir w t1 = (Normal (JsValue.Object props), t2) ->
  JsValue.stringifies (JsValue.lookup "eventId" props) = false ->
  fst (run w path) = Exit 1 /\ publication_calls (snd (run w path)) = [].
Proof.
  intros H13 Hcfg Hconv.
  unfold run.
  destruct (processTenexTask path w []) as [c0 t0] eqn:E. cbn [fst snd].
  unfold processTenexTask in E.
  unfold bind at 1 in E. unfold console_log at 1 in E. unfold emit at 1 in E.
  unfold tryCatch at 1 in E. unfold bind at 1 in E. rewrite H13 in E.
  unfold processTenexTask_steps_4_10 in E.
  unfold bind at 1 in E. rewrite Hcfg in E.
  unfold bind at 1 in E. unfold lift at 1 in E. cbn [destructure complete] in E.
  unfold publishNostrEvent in E.
  exec E.
  all: try no_exit_branch.
  all: try congruence.
  all: inversion E; subst; clear E.
  all: split; [reflexivity|].
  all: calls_facts.
  all: repeat match goal with
       | F : Forall unpublished ?evs |- _ =>
           pose proof (unpublished_no_calls evs F); clear F
       end.
  all: count_calls.
  all: reflexivity.
Qed.

Lemma unconvertible_event_id_is_never_published_witness :
  fst (run with_event_id_object "t.txt") = Exit 1
  /\ publication_calls (snd (run with_event_id_object "t.txt")) = [].
Proof.
  eapply (unconvertible_event_id_is_never_published with_event_id_object "t.txt"
            Demo.transcript "Shipyard-rux5kf");
    vm_compute; reflexivity.
Defined.


End Runs.

(** ** The whole script: the top level around [processTenexTask] *)

Module WholeScript.
Import Host Events JsString TenexTask Script Statements CoverageStatements.
Import Runs.
Local Open Scope list_scope.

Lemma interrupt_no_exit delay tr steps :
  interrupt delay tr = Some steps -> Forall no_exit_step steps.
Proof.
  revert delay steps. induction tr as [|e tr IH]; intros delay steps H.
  - discriminate H.
  - destruct e; cbn [interrupt awaited] in H;
      try discriminate H;
      try (destruct delay as [|delay]; [injection H as <-; repeat constructor|]);
      (destruct (interrupt delay tr) as [s|] eqn:E; [|discriminate H]);
      injection H as <-; (constructor; [exact I | exact (IH _ _ E)]).
Qed.

Lemma no_exit_map evs : Forall no_exit_event evs -> Forall no_exit_step (map Did evs).
Proof.
  induction 1 as [|e evs H _ IH]; cbn [map]; constructor; [|exact IH].
  destruct e; try exact I. exact H.
Qed.

(** X6.  The whole script never ends with an uncaught error, whenever
    the answer of the access check arrives.  It either completes, the
    workspace root being accessible and its last step being the line
    [Script finished successfully], or exits with status 1:
    [process.exit] is then its last step, called nowhere before, and
    follows the usage line, the three lines of the failed access check,
    or the line [Error during processing: ...]. *)
Theorem script_ends_in_order access delay argv w :
  script_ending w access (fst (script access delay argv w))
    (snd (script access delay argv w)).
Proof.
  unfold script.
  destruct (List.length argv <? 3)%nat.
  { right. split; [reflexivity|].
    exists [FsAccess (TENEX_PROJECTS_DIR w)], [Did (ConsoleError usage)].
    split; [reflexivity|]. split; [repeat constructor | left; reflexivity]. }
  pose proof (processTenexTask_ends_in_order w (nth 2 argv "undefined")) as R.
  destruct (run w (nth 2 argv "undefined")) as [c tr]. cbn [fst snd] in R.
  assert (Denied : forall e before,
             access = Failed e -> Forall no_exit_step before ->
             script_ending w access (Exit 1)
               (FsAccess (TENEX_PROJECTS_DIR w)
                  :: before ++ access_denied (TENEX_PROJECTS_DIR w))).
  { intros e before Ha Hb. right. split; [reflexivity|].
    exists (FsAccess (TENEX_PROJECTS_DIR w) :: before),
      (removelast (access_denied (TENEX_PROJECTS_DIR w))).
    split; [reflexivity|]. split; [constructor; [exact I | exact Hb]|].
    right; left. exists e. split; [exact Ha | reflexivity]. }
  assert (Own : forall before msg,
             tr = before ++ [ConsoleError ("Error during processing: " ++ msg);
                             ProcessExit 1] ->
             Forall no_exit_event before ->
             script_ending w access (Exit 1)
               (FsAccess (TENEX_PROJECTS_DIR w) :: map Did tr)).
  { intros before msg -> Hb. right. split; [reflexivity|].
    exists (FsAccess (TENEX_PROJECTS_DIR w) :: map Did before),
      [Did (ConsoleError ("Error during processing: " ++ msg))].
    split; [rewrite map_app; reflexivity|].
    split; [constructor; [exact I | now apply no_exit_map]|].
    right; right. now exists msg. }
  destruct access as [u|e].
  - cbn [fst snd].
    destruct R as [(-> & before & -> & Hb) | (-> & before & msg & Ht & Hb)].
    + left. split; [reflexivity|]. split; [now exists u|].
      exists (FsAccess (TENEX_PROJECTS_DIR w) :: map Did before).
      split; [rewrite map_app; reflexivity|].
      constructor; [exact I | now apply no_exit_map].
    + exact (Own before msg Ht Hb).
  - destruct (interrupt delay tr) as [steps|] eqn:E; cbn [fst snd].
    + apply (Denied e steps eq_refl). exact (interrupt_no_exit _ _ _ E).
    + destruct R as [(-> & before & -> & Hb) | (-> & before & msg & Ht & Hb)];
        cbn [fst snd].
      * apply (Denied e _ eq_refl). apply no_exit_map.
        apply Forall_app. split; [exact Hb | repeat constructor].
      * exact (Own before msg Ht Hb).
Qed.

(** X10.  When the transcript file does not exist, the script exits
    with status 1 without listing the workspace and without starting
    any process.  [processTenexTask] logs that the file was not found
    and exits; only when the workspace root is not accessible and that
    failure is delivered before the answer of the existence test do the
    three lines of the access check end the script instead. *)
Theorem missing_transcript_aborts_first access delay argv w :
  (3 <= List.length argv)%nat ->
  Bun_file_exists w 1 (path_resolve w (nth 2 argv "undefined")) = false ->
  let path := nth 2 argv "undefined" in
  let root := TENEX_PROJECTS_DIR w in
  script access delay argv w =
  (Exit 1,
   FsAccess root
   :: Did (ConsoleLog ("Processing Tenex task from: " ++ path))
   :: match access, delay with
      | Failed _, O =>
          Waiting (ExistsRequest (path_resolve w path)) :: access_denied root
      | _, _ =>
          [Did (BunFileExists (path_resolve w path) false);
           Did (ConsoleError ("Error during processing: Transcript file not found: "
                              ++ path_resolve w path));
           Did (ProcessExit 1)]
      end).
Proof.
  intros Hlen Hmiss. cbv zeta. unfold script.
  apply Nat.ltb_ge in Hlen. rewrite Hlen.
  rewrite (processTenexTask_without_transcript w _ Hmiss).
  destruct access as [u|e]; [reflexivity|].
  destruct delay; reflexivity.
Qed.

Lemma missing_transcript_aborts_first_witness :
  script (Failed Demo.ENOENT) 0 ["bun"; "tenex_task.ts"; "t.txt"] without_transcript =
  (Exit 1,
   [FsAccess "<path-to-tenex-projects>";
    Did (ConsoleLog "Processing Tenex task from: t.txt");
    Waiting (ExistsRequest "/work/t.txt");
    Did (ConsoleError
      "Error: Directory <path-to-tenex-projects> does not exist or is not accessible.");
    Did (ConsoleError
      "Please set the TENEX_PROJECTS_DIR environment variable to a valid directory.");
    Did (ConsoleError "Example: export TENEX_PROJECTS_DIR=/path/to/tenex-projects");
    Did (ProcessExit 1)]).
Proof.
  apply (missing_transcript_aborts_first (Failed Demo.ENOENT) 0
           ["bun"; "tenex_task.ts"; "t.txt"] without_transcript).
  - simpl. lia.
  - reflexivity.
Defined.

End WholeScript.
